(** * chidley: the command-line driver (chidley.go)

    A shallow embedding of the driver of chidley, the tool that infers Go
    structs or Java/JAXB classes from a sample XML document, and the
    properties of that driver.

    Conventions of the embedding.
    - A Go [string] is a sequence of bytes: Rocq's [string] of 8-bit [ascii].
    - A Go call that may panic returns a [Res]; code that logs, prints,
      touches the file system or stops the process runs in the trace monad
      [M], whose result is the list of observable events together with either
      a value or the way the process stopped.
    - A Go [map] is a [gmap]; a [range] over a map yields every entry once, in
      an order chosen by the runtime.  The order is an explicit argument of
      every function that ranges over a map, constrained by [RangeOf].
    - A pointer is an [option]: [None] is nil. *)

From stdpp Require Import gmap strings list fin_maps.
From Stdlib Require Import ZArith Ascii String.

#[local] Open Scope string_scope.
#[local] Open Scope Z_scope.

(** ** Results of calls that may panic *)

Inductive Res (A : Type) : Type :=
| Ok (a : A)
| Panic (msg : string).

Arguments Ok {A} a.
Arguments Panic {A} msg.

Definition res_bind {A B : Type} (r : Res A) (k : A -> Res B) : Res B :=
  match r with
  | Ok a => k a
  | Panic msg => Panic msg
  end.

Notation "x <-? r ; k" := (res_bind r (fun x => k))
  (at level 100, r at next level, right associativity, only parsing).

Definition nilDeref : string :=
  "runtime error: invalid memory address or nil pointer dereference".
Definition sliceBounds : string :=
  "runtime error: slice bounds out of range".
Definition indexRange : string :=
  "runtime error: index out of range".

(** ** Strings *)

Module GoString.

(** [s[lo:hi]]: panics unless [lo <= hi <= len(s)]. *)
Definition slice (s : string) (lo hi : nat) : Res string :=
  if (lo <=? hi)%nat && (hi <=? String.length s)%nat
  then Ok (String.substring lo (hi - lo) s)
  else Panic sliceBounds.

(** [s[lo:]] is [s[lo:len(s)]]. *)
Definition sliceFrom (s : string) (lo : nat) : Res string :=
  slice s lo (String.length s).

(** A byte below [utf8.RuneSelf] (0x80) is a character by itself. *)
Definition isASCIIbyte (c : ascii) : bool := (nat_of_ascii c <? 128)%nat.

Definition isLower (c : ascii) : bool :=
  (97 <=? nat_of_ascii c)%nat && (nat_of_ascii c <=? 122)%nat.
Definition isUpper (c : ascii) : bool :=
  (65 <=? nat_of_ascii c)%nat && (nat_of_ascii c <=? 90)%nat.

(** [c -= 'a' - 'A'] and its inverse. *)
Definition upperByte (c : ascii) : ascii :=
  if isLower c then ascii_of_nat (nat_of_ascii c - 32) else c.
Definition lowerByte (c : ascii) : ascii :=
  if isUpper c then ascii_of_nat (nat_of_ascii c + 32) else c.

Fixpoint isASCII (s : string) : bool :=
  match s with
  | EmptyString => true
  | String c r => isASCIIbyte c && isASCII r
  end.

Fixpoint mapBytes (f : ascii -> ascii) (s : string) : string :=
  match s with
  | EmptyString => EmptyString
  | String c r => String (f c) (mapBytes f r)
  end.

Section Case.
(** [strings.ToUpper] and [strings.ToLower] map an all-ASCII string
    byte by byte; any other string goes through
    [strings.Map(unicode.ToUpper, s)], the library's rune-wise path,
    which is not part of this program and stays a parameter. *)
Variable unicodeUpper unicodeLower : string -> string.

Definition ToUpper (s : string) : string :=
  if isASCII s then mapBytes upperByte s else unicodeUpper s.

Definition ToLower (s : string) : string :=
  if isASCII s then mapBytes lowerByte s else unicodeLower s.

(** chidley.go, [capitalizeFirstLetter]:
    [return strings.ToUpper(s[0:1]) + s[1:]] *)
Definition capitalizeFirstLetter (s : string) : Res string :=
  first <-? slice s 0 1;
  rest <-? sliceFrom s 1;
  Ok (ToUpper first +:+ rest).

(** chidley.go, [lowerFirstLetter]:
    [return strings.ToLower(s[0:1]) + s[1:]] *)
Definition lowerFirstLetter (s : string) : Res string :=
  first <-? slice s 0 1;
  rest <-? sliceFrom s 1;
  Ok (ToLower first +:+ rest).
End Case.



End GoString.

Export GoString.

(** chidley.go, [indent]: [d] tab characters (none when [d <= 0]). *)
Fixpoint indentLoop (n : nat) (acc : string) : string :=
  match n with
  | O => acc
  | S n' => indentLoop n' (acc +:+ String (ascii_of_nat 9) EmptyString)
  end.

Definition indent (d : Z) : string := indentLoop (Z.to_nat d) "".

(** ** Machine integers *)

(** Go's [int] on the 64-bit targets: two's complement, wrapping. *)
Definition wrap64 (z : Z) : Z := (z + 2 ^ 63) mod 2 ^ 64 - 2 ^ 63.

(** ** Booleans behind pointers *)

Section BoolPointers.
(** [Addr] is the set of addressable [bool] variables, [mem] their
    current contents; a [*bool] is nil or one address. *)
Context {Addr : Type}.
Variable mem : Addr -> bool.

Definition deref (p : option Addr) : Res bool :=
  match p with
  | Some a => Ok (mem a)
  | None => Panic nilDeref
  end.

(** The loop [for i := 0; i < len(a); i++] of [countNumberOfBoolsSet],
    started at the element [a[i]] with the current [counter]. *)
Fixpoint countFrom (a : list (option Addr)) (counter : Z) : Res Z :=
  match a with
  | [] => Ok counter
  | p :: rest =>
      b <-? deref p;
      countFrom rest (if b then wrap64 (counter + 1) else counter)
  end.

(** chidley.go, [countNumberOfBoolsSet]. *)
Definition countNumberOfBoolsSet (a : list (option Addr)) : Res Z :=
  countFrom a 0.

(** The number of pointers of [a] whose target holds [true]. *)
Definition pointsToTrue (p : option Addr) : bool :=
  match p with
  | Some a => mem a
  | None => false
  end.

Definition targetsTrue (a : list (option Addr)) : nat :=
  List.length (List.filter pointsToTrue a).
End BoolPointers.

(** ** Package-level variables and constants *)

(** The package-level variables of chidley.go, as [flag.Parse] leaves
    them. *)
Record Globals : Type := mkGlobals {
  DEBUG : bool;
  progress : bool;
  attributePrefix : string;
  structsToStdout : bool;
  nameSpaceInJsonName : bool;
  prettyPrint : bool;
  codeGenConvert : bool;
  readFromStandardIn : bool;
  codeGenDir : string;
  codeGenFilename : string;
  javaAppName : string;
  writeJava : bool;
  baseJavaDir : string;
  namePrefix : string;
  nameSuffix : string;
  xmlName : bool;
  url : bool;
  useType : bool
}.

(** The values of the [var] declarations, before any flag is parsed. *)
Definition defaults : Globals :=
  {| DEBUG := false; progress := false; attributePrefix := "Attr";
     structsToStdout := false; nameSpaceInJsonName := false;
     prettyPrint := false; codeGenConvert := false;
     readFromStandardIn := false; codeGenDir := "codegen";
     codeGenFilename := "CodeGenStructs.go"; javaAppName := "jaxb";
     writeJava := false; baseJavaDir := "java"; namePrefix := "Chi";
     nameSuffix := ""; xmlName := false; url := false; useType := false |}.

Definition javaBasePackage : string := "ca.gnewton.chidley".
Definition mavenJavaBase : string := "src/main/java".
Definition XMLNS : string := "xmlns".

(** [strings.Replace(s, old, new, -1)] for one-byte [old] and [new]. *)
Definition replaceByte (old new : ascii) (s : string) : string :=
  mapBytes (fun c => if Ascii.eqb c old then new else c) s.

Definition javaBasePackagePath : string :=
  replaceByte "."%char "/"%char javaBasePackage.

(** The addresses of the boolean package-level variables. *)
Inductive BoolVar : Type :=
| AddrDEBUG | AddrProgress | AddrStructsToStdout | AddrNameSpaceInJsonName
| AddrPrettyPrint | AddrCodeGenConvert | AddrReadFromStandardIn
| AddrWriteJava | AddrXmlName | AddrUrl | AddrUseType.

Definition load (g : Globals) (v : BoolVar) : bool :=
  match v with
  | AddrDEBUG => DEBUG g
  | AddrProgress => progress g
  | AddrStructsToStdout => structsToStdout g
  | AddrNameSpaceInJsonName => nameSpaceInJsonName g
  | AddrPrettyPrint => prettyPrint g
  | AddrCodeGenConvert => codeGenConvert g
  | AddrReadFromStandardIn => readFromStandardIn g
  | AddrWriteJava => writeJava g
  | AddrXmlName => xmlName g
  | AddrUrl => url g
  | AddrUseType => useType g
  end.

(** [var outputs = []*bool{&codeGenConvert, &structsToStdout, &writeJava}] *)
Definition outputs : list (option BoolVar) :=
  [Some AddrCodeGenConvert; Some AddrStructsToStdout; Some AddrWriteJava].

(** ** The tree model *)

(** Modelled from the spec: the type [Node] is declared in another file
    of the repository.  Section 3 of the specification gives an element
    node its local name, its namespace and a mapping from local name to
    child node; chidley.go reads the fields [name], [space] and
    [children], ranges over [children] and compares the children with
    nil.  Nothing is assumed about the order in which a range yields the
    children: see [RangeOf]. *)
#[local] Unset Elimination Schemes.
Inductive Node : Type := mkNode {
  name : string;
  space : string;
  children : gmap string (option Node)
}.
#[local] Set Elimination Schemes.

(** Modelled from the spec: an attribute record (type [FQN], declared
    in another file): a name in a namespace. *)
Record FQN : Type := mkFQN {
  fqnSpace : string;
  fqnName : string
}.

(** [range m] yields the entries of [m], each once, in an order that the
    runtime picks: [rng] is one such enumeration of [m]. *)
Definition RangeOf {V : Type} (m : gmap string V) (rng : list (string * V)) : Prop :=
  rng ≡ₚ map_to_list m.

(** chidley.go, [attributes]: [rng] is what [range atts] yields. *)
Definition attributes (rng : list (string * bool)) : string :=
  fold_left (fun ret kv => (ret +:+ fst kv) +:+ ", ") rng ": ".

(** chidley.go, [findNameSpaces]. *)
Definition findNameSpaces (attrs : option (list FQN)) : option (list FQN) :=
  match attrs with
  | None => None
  | Some l => if (List.length l =? 0)%nat then None else Some []
  end.

(** The structures handed to the templates (declared with the templates,
    in other files; chidley.go fills in every field listed here). *)
Record XMLType : Type := mkXMLType {
  NameType : string;
  XMLName : string;
  XMLNameUpper : string;
  XMLSpace : string
}.

Record XmlInfo : Type := mkXmlInfo {
  BaseXML : XMLType;
  OneLevelDownXML : list XMLType;
  Filename : string;
  Structs : string
}.

Record JaxbMainClassInfo : Type := mkJaxbMainClassInfo {
  PackageName : string;
  BaseXMLClassName : string;
  SourceXMLFilename : string
}.

Record JaxbPackageInfo : Type := mkJaxbPackageInfo {
  BaseNameSpace : string;
  PackageInfoName : string
}.

Record JaxbMavenPomInfo : Type := mkJaxbMavenPomInfo {
  AppName : string
}.

Inductive TemplateData : Type :=
| DataXmlInfo (x : XmlInfo)
| DataJaxbMain (c : JaxbMainClassInfo)
| DataPackageInfo (p : JaxbPackageInfo)
| DataMavenPom (m : JaxbMavenPomInfo).

(** ** Sources, the extractor and the observable events *)

Inductive SourceKind : Type := UrlSource | StdinSource | FileSource.

(** A source after [new(...)] and [newSource(sourceName)]. *)
Record Source : Type := mkSource {
  sourceKind : SourceKind;
  sourceOf : string
}.

(** The [Extractor] literal of [main] and the four fields of it that
    [main] reads back after [extract]. *)
Record Extractor : Type := mkExtractor {
  exNamePrefix : string;
  exNameSuffix : string;
  exReader : Source;
  exUseType : bool;
  exProgress : bool;
  root : option Node;
  firstNode : option Node;
  globalTagAttributes : gmap string (list FQN);
  nameSpaceTagMap : gmap string string
}.

Inductive WriterKind : Type := stringWriter | stdoutWriter.
Inductive VisitorKind : Type := PrintGoStructVisitor | PrintJavaJaxbVisitor.

(** What a run does to the outside world, in order. *)
Inductive Event : Type :=
| LogPrint (msg : string)                      (* log.Print, log.Println *)
| Println (line : string)                      (* fmt.Println *)
| FlagUsage                                    (* flag.Usage() *)
| FilepathAbs (path : string)                  (* filepath.Abs *)
| NewSource (k : SourceKind) (nm : string)     (* source.newSource *)
| Extract (err : option string)                (* ex.extract() and its result *)
| WriterOpen (w : WriterKind)
| WriterClose (w : WriterKind)
| VisitorInit (v : VisitorKind)                (* the visitor is set up *)
| Visit (v : VisitorKind) (n : option Node)    (* visitor.Visit(n) *)
| Execute (tmpl : string) (data : TemplateData) (* t.Execute(w, data) *)
| RemoveAll (path : string)                    (* os.RemoveAll *)
| MkdirAll (path : string) (perm : Z)          (* os.MkdirAll *)
| Create (path : string)                       (* os.Create *)
| JavaClassWriter (dir pkg cls : string).      (* javaClassWriter *)

(** How the process stops. *)
Inductive Stop : Type :=
| Returned                 (* main returns *)
| OsExit (code : Z)        (* log.Fatal: os.Exit(1) *)
| Panicked (msg : string). (* an unrecovered panic *)

(** The exit status the operating system sees. *)
Definition exitStatus (s : Stop) : Z :=
  match s with
  | Returned => 0
  | OsExit code => code
  | Panicked _ => 2
  end.

(** ** The trace monad *)

Definition M (A : Type) : Type := list Event * (A + Stop).

Definition ret {A : Type} (a : A) : M A := ([], inl a).

Definition bind {A B : Type} (m : M A) (k : A -> M B) : M B :=
  match m with
  | (tr, inl a) => let (tr', r) := k a in ((tr ++ tr')%list, r)
  | (tr, inr s) => (tr, inr s)
  end.

Notation "x <- m ;; k" := (bind m (fun x => k))
  (at level 100, m at next level, right associativity, only parsing).
Notation "m ;; k" := (bind m (fun _ => k))
  (at level 100, right associativity, only parsing).

Definition emit (e : Event) : M unit := ([e], inl tt).
Definition stop {A : Type} (s : Stop) : M A := ([], inr s).
Definition when (b : bool) (m : M unit) : M unit := if b then m else ret tt.

(** A call that may panic, made from code that runs in [M]. *)
Definition call {A : Type} (r : Res A) : M A :=
  match r with
  | Ok a => ret a
  | Panic msg => stop (Panicked msg)
  end.

Definition logPrint (msg : string) : M unit := emit (LogPrint msg).

(** [log.Fatal(msg)]: print, then [os.Exit(1)]. *)
Definition logFatal {A : Type} (msg : string) : M A :=
  logPrint msg ;; stop (OsExit 1).

(** What the surroundings answer during one run: the positional
    arguments, the results of the library calls and of the parts of the
    program that live in other files, and the orders in which the runtime
    enumerates the maps that the run ranges over ([RangeOf] and
    [RangesOf] say that they are enumerations of those maps). *)
Record Runtime : Type := mkRuntime {
  args : list string;                              (* flag.Args() *)
  filepathAbs : string -> string + string;         (* path, or the error *)
  newSource : SourceKind -> string -> option string;
  extract : Extractor -> option string * Extractor;
  osCreate : string -> option string;
  templateExecute : string -> option string;
  structsText : string;                            (* sWriter.s *)
  rangeRoot : list (string * option Node);         (* range ex.root.children *)
  rangeChild : string -> list (string * option Node)
                                                   (* range np.children, np = children[k] *)
}.

(** The whole run: the events and how the process stopped. *)
Definition finish (m : M unit) : list Event * Stop :=
  match m with
  | (tr, inl _) => (tr, Returned)
  | (tr, inr s) => (tr, s)
  end.

(** ** The functions of chidley.go *)

Section Driver.
(** The rune-wise path of [strings.ToUpper] (see [GoString]). *)
Variable unicodeUpper : string -> string.

(** Methods and functions that chidley.go calls and other files of
    the repository define; on a non-nil receiver they are parameters. *)
Variable makeType : Node -> string -> string -> string.
Variable makeJavaType : Node -> string -> string -> string.
Variable getFullPath : string -> string.
Variable nk : Node -> string.

(** Reading a field through a pointer: [p.f] panics when [p] is nil. *)
Definition field {A : Type} (p : option Node) (f : Node -> A) : Res A :=
  match p with
  | Some n => Ok (f n)
  | None => Panic nilDeref
  end.

(** Modelled from the spec: the methods [makeType] and [makeJavaType]
    of [*Node] are defined in another file.  Per section 4.3 of the
    specification they combine the node's name with the prefix and the
    suffix, so they read a field of their receiver, and a nil receiver
    is a nil pointer dereference. *)
Definition callMakeType (p : option Node) (prefix suffix : string) : Res string :=
  field p (fun n => makeType n prefix suffix).

Definition callMakeJavaType (p : option Node) (prefix suffix : string) : Res string :=
  field p (fun n => makeJavaType n prefix suffix).

(** The composite literal
    [XMLType{NameType: n.makeType(namePrefix, nameSuffix), XMLName: n.name,
             XMLNameUpper: capitalizeFirstLetter(n.name), XMLSpace: n.space}],
    written once in [main] (for [ex.firstNode]) and once in
    [makeOneLevelDown]; its operands are evaluated from left to right. *)
Definition xmlTypeOf (g : Globals) (p : option Node) : Res XMLType :=
  nameType <-? callMakeType p (namePrefix g) (nameSuffix g);
  xmlNm <-? field p name;
  upper <-? capitalizeFirstLetter unicodeUpper xmlNm;
  xmlSp <-? field p space;
  Ok {| NameType := nameType; XMLName := xmlNm;
        XMLNameUpper := upper; XMLSpace := xmlSp |}.

(** The inner loop of [makeOneLevelDown], [for _, n := range np.children],
    over the entries that the range yields, appending to [acc]. *)
Fixpoint oneLevelInner (g : Globals) (rng : list (string * option Node))
    (acc : list XMLType) : Res (list XMLType) :=
  match rng with
  | [] => Ok acc
  | (_, None) :: rest => oneLevelInner g rest acc
  | (_, Some n) :: rest =>
      x <-? xmlTypeOf g (Some n);
      oneLevelInner g rest (acc ++ [x])%list
  end.

(** The outer loop, [for _, np := range node.children]; [inner k] is
    what the range over the children of [node.children[k]] yields. *)
Fixpoint oneLevelOuter (g : Globals)
    (inner : string -> list (string * option Node))
    (rng : list (string * option Node))
    (acc : list XMLType) : Res (list XMLType) :=
  match rng with
  | [] => Ok acc
  | (_, None) :: rest => oneLevelOuter g inner rest acc
  | (k, Some _) :: rest =>
      acc' <-? oneLevelInner g (inner k) acc;
      oneLevelOuter g inner rest acc'
  end.

(** chidley.go, [makeOneLevelDown]: [outer] is what [range node.children]
    yields, [inner] as in [oneLevelOuter]. *)
Definition makeOneLevelDown (g : Globals)
    (outer : list (string * option Node))
    (inner : string -> list (string * option Node))
    (node : option Node) : Res (list XMLType) :=
  _ <-? field node children;
  oneLevelOuter g inner outer [].

(** chidley.go, [handleParameters], after [flag.Parse()] has set the
    package-level variables to [g].  The returned error is nil on
    every path. *)
Definition handleParameters (g : Globals) : M (option string) :=
  numBoolsSet <- call (countNumberOfBoolsSet (load g) outputs) ;;
  (if numBoolsSet >? 1
   then logPrint "  ERROR: Only one of -W -J -X -V -c can be set"
   else if numBoolsSet =? 0
   then logPrint "  ERROR: At least one of -W -J -X -V -c must be set"
   else ret tt) ;;
  ret None.

(** chidley.go, [makeSourceReader]. *)
Definition makeSourceReader (g : Globals) (rt : Runtime)
    (sourceName : string) (url standardIn : bool) : M (Source * option string) :=
  k <- (if url
        then when (DEBUG g) (logPrint "Making UrlSource") ;; ret UrlSource
        else if standardIn
        then when (DEBUG g) (logPrint "Making StdinSource") ;; ret StdinSource
        else when (DEBUG g) (logPrint "Making FileSource") ;; ret FileSource) ;;
  when (DEBUG g) (logPrint ("Making Source:[" +:+ sourceName +:+ "]")) ;;
  emit (NewSource k sourceName) ;;
  ret (mkSource k sourceName, newSource rt k sourceName).

(** [err = t.Execute(writer, data)] followed by
    [if err != nil { log.Println("executing template:", err) }]. *)
Definition executeTemplate (rt : Runtime) (tmpl : string) (data : TemplateData) : M unit :=
  emit (Execute tmpl data) ;;
  match templateExecute rt tmpl with
  | Some err => logPrint ("executing template: " +:+ err)
  | None => ret tt
  end.

(** [fi, err := os.Create(path)] followed by
    [if err != nil { log.Print("Problem creating file: " + path); panic(err) }]. *)
Definition createOrPanic (rt : Runtime) (path : string) : M unit :=
  emit (Create path) ;;
  match osCreate rt path with
  | Some err => logPrint ("Problem creating file: " +:+ path) ;; stop (Panicked err)
  | None => ret tt
  end.

(** chidley.go, [printPackageInfo]. *)
Definition printPackageInfo (rt : Runtime) (node : option Node)
    (javaDir javaPackage : string)
    (attrs : gmap string (list FQN)) (nsTags : gmap string string) : M unit :=
  sp <- call (field node space) ;;
  if negb (String.eqb sp "")
  then
    key <- call (field node nk) ;;
    let _ := findNameSpaces (attrs !! key) in
    let packageInfoPath := javaDir +:+ "/xml/package-info.java" in
    createOrPanic rt packageInfoPath ;;
    executeTemplate rt "package-info"
      (DataPackageInfo {| BaseNameSpace := sp;
                          PackageInfoName := javaPackage +:+ ".xml" |})
  else ret tt.

(** chidley.go, [printMavenPom]. *)
Definition printMavenPom (rt : Runtime) (pomPath appName : string) : M unit :=
  createOrPanic rt pomPath ;;
  executeTemplate rt "mavenPom" (DataMavenPom {| AppName := appName |}).

(** chidley.go, [printJavaJaxbMain]; the error of [javaClassWriter] is
    overwritten without being looked at. *)
Definition printJavaJaxbMain (rt : Runtime)
    (rootElementName javaDir javaPackage sourceXMLFilename : string) : M unit :=
  emit (JavaClassWriter javaDir javaPackage "Main") ;;
  executeTemplate rt "chidleyJaxbGenClass"
    (DataJaxbMain {| PackageName := javaPackage;
                     BaseXMLClassName := rootElementName;
                     SourceXMLFilename := sourceXMLFilename |}).

(** [a[i]] on a slice of strings. *)
Definition index (a : list string) (i : nat) : Res string :=
  match nth_error a i with
  | Some x => Ok x
  | None => Panic indexRange
  end.

(** The loop of the Java branch of [main],
    [for _, child := range ex.root.children {
       printJavaJaxbVisitor.Visit(child); onlyChild = child }],
    over the entries that the range yields; the result is [onlyChild]. *)
Fixpoint visitChildren (rng : list (string * option Node))
    (onlyChild : option Node) : M (option Node) :=
  match rng with
  | [] => ret onlyChild
  | (_, child) :: rest =>
      emit (Visit PrintJavaJaxbVisitor child) ;;
      visitChildren rest child
  end.

(** [case codeGenConvert:] *)
Definition emitConversionCode (g : Globals) (rt : Runtime)
    (ex : Extractor) (sourceName : string) : M unit :=
  emit (WriterOpen stringWriter) ;;
  emit (VisitorInit PrintGoStructVisitor) ;;
  emit (Visit PrintGoStructVisitor (root ex)) ;;
  emit (WriterClose stringWriter) ;;
  xt <- call (xmlTypeOf g (firstNode ex)) ;;
  oneDown <- call (makeOneLevelDown g (rangeRoot rt) (rangeChild rt) (root ex)) ;;
  executeTemplate rt "chidleyGen"
    (DataXmlInfo {| BaseXML := xt; OneLevelDownXML := oneDown;
                    Filename := getFullPath sourceName;
                    Structs := structsText rt |}).

(** [case structsToStdout:] *)
Definition emitStructs (ex : Extractor) : M unit :=
  emit (WriterOpen stdoutWriter) ;;
  emit (VisitorInit PrintGoStructVisitor) ;;
  emit (Visit PrintGoStructVisitor (root ex)) ;;
  emit (WriterClose stdoutWriter).

(** [case writeJava:] *)
Definition emitJava (g : Globals) (rt : Runtime)
    (ex : Extractor) (sourceName : string) : M unit :=
  let javaPackage := javaBasePackage +:+ "." +:+ javaAppName g in
  let javaDir := baseJavaDir g +:+ "/" +:+ mavenJavaBase +:+ "/"
                 +:+ javaBasePackagePath +:+ "/" +:+ javaAppName g in
  emit (RemoveAll (baseJavaDir g)) ;;
  emit (MkdirAll (javaDir +:+ "/xml") 493) ;;
  emit (VisitorInit PrintJavaJaxbVisitor) ;;
  _ <- call (field (root ex) children) ;;
  onlyChild <- visitChildren (rangeRoot rt) None ;;
  className <- call (callMakeJavaType onlyChild (namePrefix g) "") ;;
  printJavaJaxbMain rt className javaDir javaPackage (getFullPath sourceName) ;;
  printPackageInfo rt onlyChild javaDir javaPackage
    (globalTagAttributes ex) (nameSpaceTagMap ex) ;;
  printMavenPom rt (baseJavaDir g +:+ "/pom.xml") (javaAppName g).

(** The [switch] of [main]: the first case whose flag is set runs, and
    no case runs when no flag is set. *)
Definition emitOutput (g : Globals) (rt : Runtime)
    (ex : Extractor) (sourceName : string) : M unit :=
  if codeGenConvert g then emitConversionCode g rt ex sourceName
  else if structsToStdout g then emitStructs ex
  else if writeJava g then emitJava g rt ex sourceName
  else ret tt.

(** chidley.go, [main], lines 105 to 120: the name of the source is
    settled and the source is opened.  The result is the source and
    [sourceName]. *)
Definition openSource (g : Globals) (rt : Runtime) : M (Source * string) :=
  sourceName <- (if negb (readFromStandardIn g)
                 then call (index (args rt) 0)
                 else ret "") ;;
  sourceName <- (if negb (url g) && negb (readFromStandardIn g)
                 then emit (FilepathAbs sourceName) ;;
                      match filepathAbs rt sourceName with
                      | inl p => ret p
                      | inr e => logFatal ("FATAL ERROR: " +:+ e)
                      end
                 else ret sourceName) ;;
  made <- makeSourceReader g rt sourceName (url g) (readFromStandardIn g) ;;
  match snd made with
  | Some e => logFatal ("FATAL ERROR: " +:+ e)
  | None => ret (fst made, sourceName)
  end.

(** The [Extractor] literal of [main]; [source.getReader()] stands for
    the source itself. *)
Definition newExtractor (g : Globals) (source : Source) : Extractor :=
  {| exNamePrefix := namePrefix g;
     exNameSuffix := nameSuffix g;
     exReader := source;
     exUseType := useType g;
     exProgress := progress g;
     root := None; firstNode := None;
     globalTagAttributes := ∅; nameSpaceTagMap := ∅ |}.

(** chidley.go, [main], lines 122 to 137: the document is extracted.
    The result is the extractor after [ex.extract()]. *)
Definition extractFrom (g : Globals) (rt : Runtime) (source : Source) : M Extractor :=
  let ex := newExtractor g source in
  when (DEBUG g) (logPrint "extracting") ;;
  let extracted := extract rt ex in
  emit (Extract (fst extracted)) ;;
  match fst extracted with
  | Some e => logFatal ("FATAL ERROR: " +:+ e)
  | None => ret (snd extracted)
  end.

Definition openAndExtract (g : Globals) (rt : Runtime) : M (Extractor * string) :=
  opened <- openSource g rt ;;
  ex <- extractFrom g rt (fst opened) ;;
  ret (ex, snd opened).

(** chidley.go, [main], up to the [switch] (lines 88 to 137).
    [runtime.GOMAXPROCS] and [log.SetFlags] change neither the control
    flow nor the events recorded here. *)
Definition mainUntilSwitch (g : Globals) (rt : Runtime) : M (Extractor * string) :=
  err <- handleParameters g ;;
  match err with
  | Some _ => emit FlagUsage ;; stop Returned
  | None =>
      if negb (List.length (args rt) =? 1)%nat && negb (readFromStandardIn g)
      then
        emit (Println "chidley <flags> xmlFileName|url") ;;
        emit (Println "xmlFileName can be .gz or .bz2: uncompressed transparently") ;;
        emit FlagUsage ;;
        stop Returned
      else openAndExtract g rt
  end.

(** chidley.go, [main]. *)
Definition main (g : Globals) (rt : Runtime) : M unit :=
  reached <- mainUntilSwitch g rt ;;
  emitOutput g rt (fst reached) (snd reached).

(** One run of the program: its events and how it stopped. *)
Definition run (g : Globals) (rt : Runtime) : list Event * Stop :=
  finish (main g rt).
End Driver.

(** ** Observations on a trace *)

(** The events of the emitters: everything that happens in a case of the
    [switch] of [main]. *)
Definition isEmission (e : Event) : bool :=
  match e with
  | WriterOpen _ | WriterClose _ | VisitorInit _ | Visit _ _ | Execute _ _
  | RemoveAll _ | MkdirAll _ _ | Create _ | JavaClassWriter _ _ _ => true
  | LogPrint _ | Println _ | FlagUsage | FilepathAbs _ | NewSource _ _
  | Extract _ => false
  end.

(** Events that put something on standard output or on disk; the log
    goes to standard error. *)
Definition isOutput (e : Event) : bool :=
  match e with
  | Println _ => true
  | _ => isEmission e
  end.

(** Events that create, write or remove something under the Java output
    directory. *)
Definition touchesFiles (e : Event) : bool :=
  match e with
  | RemoveAll _ | MkdirAll _ _ | Create _ | JavaClassWriter _ _ _
  | Visit PrintJavaJaxbVisitor _
  | Execute _ (DataJaxbMain _) | Execute _ (DataPackageInfo _)
  | Execute _ (DataMavenPom _) => true
  | _ => false
  end.

Definition isVisitorInit (e : Event) : bool :=
  match e with VisitorInit _ => true | _ => false end.

Definition isNewSource (e : Event) : bool :=
  match e with NewSource _ _ => true | _ => false end.

Definition isExtract (e : Event) : bool :=
  match e with Extract _ => true | _ => false end.

(** The number of emitter visitors that a run sets up. *)
Definition visitorsRun (tr : list Event) : nat :=
  List.length (List.filter isVisitorInit tr).

(** The number of sources that a run opens. *)
Definition sourcesOpened (tr : list Event) : nat :=
  List.length (List.filter isNewSource tr).

(** Events that neither put out anything nor are the extraction. *)
Definition silent (e : Event) : bool := negb (isOutput e) && negb (isExtract e).

(** The three ways in which [main] gets to its [switch], or stops before
    it: before [extract] is called, on the error of [extract], or with
    the extracted model. *)
Inductive Prelude (rt : Runtime) : M (Extractor * string) -> Prop :=
| StoppedBefore (tr : list Event) (s : Stop) :
    forallb (fun e => negb (isEmission e) && negb (isExtract e)) tr = true ->
    (sourcesOpened tr <= 1)%nat ->
    Prelude rt (tr, inr s)
| ExtractFailed (pre : list Event) (e : string) :
    forallb silent pre = true ->
    sourcesOpened pre = 1%nat ->
    Prelude rt ((pre ++ [Extract (Some e); LogPrint ("FATAL ERROR: " +:+ e)])%list,
                inr (OsExit 1))
| Extracted (pre : list Event) (ex0 ex : Extractor) (src : string) :
    forallb silent pre = true ->
    sourcesOpened pre = 1%nat ->
    extract rt ex0 = (None, ex) ->
    Prelude rt ((pre ++ [Extract None])%list, inl (ex, src)).

(** What follows the set-up of the visitor in the two cases of the
    [switch] that go on after it: template output and log lines in the
    conversion case; visits, files, template output and log lines in the
    Java case. *)
Definition afterGoVisitor (e : Event) : bool :=
  match e with
  | Execute _ (DataXmlInfo _) | LogPrint _ => true
  | _ => false
  end.

Definition afterJavaVisitor (e : Event) : bool :=
  match e with
  | Visit PrintJavaJaxbVisitor _ | JavaClassWriter _ _ _ | Create _
  | Execute _ (DataJaxbMain _) | Execute _ (DataPackageInfo _)
  | Execute _ (DataMavenPom _) | LogPrint _ => true
  | _ => false
  end.

(** A log line that reports an error of the command line. *)
Definition isErrorReport (e : Event) : bool :=
  match e with
  | LogPrint msg => String.prefix "  ERROR: " msg
  | _ => false
  end.

Definition reportsError (tr : list Event) : bool := existsb isErrorReport tr.

(** The number of output modes that the command line selects. *)
Definition modesSet (g : Globals) : nat :=
  (Nat.b2n (codeGenConvert g) + Nat.b2n (structsToStdout g)
   + Nat.b2n (writeJava g))%nat.

(** The directory of the generated Java sources, as [main] builds it. *)
Definition javaDirOf (g : Globals) : string :=
  baseJavaDir g +:+ "/" +:+ mavenJavaBase +:+ "/"
  +:+ javaBasePackagePath +:+ "/" +:+ javaAppName g.

(** The non-nil grandchildren of a node, for chosen enumerations of the
    children maps. *)
Definition nonNil (rng : list (string * option Node)) : list Node :=
  omap snd rng.

Definition grandchildrenIn (outer : list (string * option Node))
    (inner : string -> list (string * option Node)) : list Node :=
  outer ≫= (fun kv => match snd kv with
                       | Some _ => nonNil (inner (fst kv))
                       | None => []
                       end).

(** The non-nil grandchildren of a node, in the order of [map_to_list]. *)
Definition grandchildren (r : Node) : list Node :=
  map_to_list (children r) ≫=
    (fun kv => match snd kv with
               | Some np => nonNil (map_to_list (children np))
               | None => []
               end).




(** The entry that [makeOneLevelDown] builds for a grandchild with a
    non-empty name. *)
Definition entryFor (unicodeUpper : string -> string)
    (makeType : Node -> string -> string -> string)
    (g : Globals) (n : Node) : XMLType :=
  {| NameType := makeType n (namePrefix g) (nameSuffix g);
     XMLName := name n;
     XMLNameUpper := match name n with
                     | EmptyString => EmptyString
                     | String c rest => ToUpper unicodeUpper (String c "") +:+ rest
                     end;
     XMLSpace := space n |}.

Definition named (n : Node) : bool := negb (String.eqb (name n) "").

(** Two results of [makeOneLevelDown] agree up to the order of the
    entries. *)
Definition sameEntries (r1 r2 : Res (list XMLType)) : Prop :=
  match r1, r2 with
  | Ok l1, Ok l2 => l1 ≡ₚ l2
  | Panic m1, Panic m2 => m1 = m2
  | _, _ => False
  end.

(** The pieces that [attributes] appends for the entries of a range,
    and strings put end to end. *)
Definition pieces (rng : list (string * bool)) : list string :=
  map (fun kv => fst kv +:+ ", ") rng.

Definition flatten (l : list string) : string := fold_right String.append "" l.

(** The enumerations of one call of [makeOneLevelDown] on [r] are
    enumerations of the maps that the call ranges over. *)
Definition RangesOf (r : Node) (outer : list (string * option Node))
    (inner : string -> list (string * option Node)) : Prop :=
  RangeOf (children r) outer /\
  forall k np, children r !! k = Some (Some np) ->
               RangeOf (children np) (inner k).

(** ** Sample inputs *)

Module Sample.
(** A stand-in for the rune-wise path of the library, and for the
    naming methods of [*Node]. *)
Definition runes (s : string) : string := s.
Definition typeName (n : Node) (prefix suffix : string) : string :=
  prefix +:+ name n +:+ suffix.

Definition leaf (nm sp : string) : Node := mkNode nm sp ∅.

(** The tree of [<r><a/><b xmlns="urn:x"/></r>] under the synthetic root. *)
Definition elemA : Node := leaf "a" "".
Definition elemB : Node := leaf "b" "urn:x".
Definition elemR : Node :=
  mkNode "r" "" (<["a" := Some elemA]> {["b" := Some elemB]}).
Definition doc : Node := mkNode "root" "" {["r" := Some elemR]}.

(** A root without any element below it. *)
Definition emptyDoc : Node := leaf "root" "".

Definition only (mode : BoolVar) : Globals :=
  {| DEBUG := false; progress := false; attributePrefix := "Attr";
     structsToStdout := match mode with AddrStructsToStdout => true | _ => false end;
     nameSpaceInJsonName := false; prettyPrint := false;
     codeGenConvert := match mode with AddrCodeGenConvert => true | _ => false end;
     readFromStandardIn := false; codeGenDir := "codegen";
     codeGenFilename := "CodeGenStructs.go"; javaAppName := "jaxb";
     writeJava := match mode with AddrWriteJava => true | _ => false end;
     baseJavaDir := "java"; namePrefix := "Chi"; nameSuffix := "";
     xmlName := false; url := false; useType := false |}.

(** A run in directory [/w] with positional arguments [a], in which
    every library call succeeds, [extract] yields the tree [t] and the
    error [e], and the runtime enumerates every map in the order of
    [map_to_list]. *)
Definition world (a : list string) (t : option Node) (e : option string) : Runtime :=
  {| args := a;
     filepathAbs := fun p => inl ("/w/" +:+ p);
     newSource := fun _ _ => None;
     extract := fun ex =>
       (e, {| exNamePrefix := exNamePrefix ex; exNameSuffix := exNameSuffix ex;
              exReader := exReader ex; exUseType := exUseType ex;
              exProgress := exProgress ex;
              root := t;
              firstNode := match t with
                           | Some r => match map_to_list (children r) with
                                       | (_, c) :: _ => c
                                       | [] => None
                                       end
                           | None => None
                           end;
              globalTagAttributes := ∅; nameSpaceTagMap := ∅ |});
     osCreate := fun _ => None;
     templateExecute := fun _ => None;
     structsText := "";
     rangeRoot := match t with
                  | Some r => map_to_list (children r)
                  | None => []
                  end;
     rangeChild := fun k =>
       match t with
       | Some r => match children r !! k with
                   | Some (Some np) => map_to_list (children np)
                   | _ => []
                   end
       | None => []
       end |}.




(** An attribute set with two names. *)
Definition atts : gmap string bool := <["id" := true]> {["lang" := true]}.

Definition go (g : Globals) (rt : Runtime) : list Event * Stop :=
  run runes typeName typeName (fun p => p) name g rt.
End Sample.

(** ** Further functions and observations *)

(** chidley.go, [printChildrenChildren]: [rng] is what
    [range node.children] yields; [showChildren] is the rendering of a
    children map by the verb [%+v] of the library. *)
Section PrintChildren.
Variable showChildren : gmap string (option Node) -> string.

Fixpoint printChildrenLoop (rng : list (string * option Node)) : M unit :=
  match rng with
  | [] => ret tt
  | (k, v) :: rest =>
      logPrint k ;;
      c <- call (field v children) ;;
      logPrint ("children: " +:+ showChildren c
                +:+ String (ascii_of_nat 10) EmptyString) ;;
      printChildrenLoop rest
  end.

Definition printChildrenChildren (rng : list (string * option Node))
    (node : option Node) : M unit :=
  _ <- call (field node children) ;;
  printChildrenLoop rng.
(** The two log lines of one non-nil child. *)
Definition childLines (kv : string * Node) : list Event :=
  [LogPrint (fst kv);
   LogPrint ("children: " +:+ showChildren (children (snd kv))
             +:+ String (ascii_of_nat 10) EmptyString)].
End PrintChildren.

(** The Java package of the generated classes, as [main] builds it. *)
Definition javaPackageOf (g : Globals) : string :=
  javaBasePackage +:+ "." +:+ javaAppName g.

Fixpoint containsByte (c : ascii) (s : string) : bool :=
  match s with
  | EmptyString => false
  | String x r => Ascii.eqb x c || containsByte c r
  end.

(** [n] tab characters. *)
Fixpoint tabs (n : nat) : string :=
  match n with
  | O => EmptyString
  | S n' => String (ascii_of_nat 9) (tabs n')
  end.

(** A trace without its log lines, and two outcomes that differ in
    their log lines only. *)
Definition isLog (e : Event) : bool :=
  match e with LogPrint _ => true | _ => false end.

Definition unlogged (tr : list Event) : list Event :=
  List.filter (fun e => negb (isLog e)) tr.

Definition sameButLog {R : Type} (p1 p2 : list Event * R) : Prop :=
  unlogged (fst p1) = unlogged (fst p2) /\ snd p1 = snd p2.

(** The package-level variables with another value of [DEBUG], and the
    surroundings with other answers of [t.Execute]. *)
Definition withDEBUG (b : bool) (g : Globals) : Globals :=
  {| DEBUG := b; progress := progress g; attributePrefix := attributePrefix g;
     structsToStdout := structsToStdout g;
     nameSpaceInJsonName := nameSpaceInJsonName g;
     prettyPrint := prettyPrint g; codeGenConvert := codeGenConvert g;
     readFromStandardIn := readFromStandardIn g; codeGenDir := codeGenDir g;
     codeGenFilename := codeGenFilename g; javaAppName := javaAppName g;
     writeJava := writeJava g; baseJavaDir := baseJavaDir g;
     namePrefix := namePrefix g; nameSuffix := nameSuffix g;
     xmlName := xmlName g; url := url g; useType := useType g |}.

Definition withTemplateExecute (f : string -> option string) (rt : Runtime) : Runtime :=
  {| args := args rt; filepathAbs := filepathAbs rt; newSource := newSource rt;
     extract := extract rt; osCreate := osCreate rt; templateExecute := f;
     structsText := structsText rt; rangeRoot := rangeRoot rt;
     rangeChild := rangeChild rt |}.

(** The paths handed to [os.Create] during a run, in order. *)
Definition created (tr : list Event) : list string :=
  omap (fun e => match e with Create p => Some p | _ => None end) tr.

(** The source that [main] opens: its kind by the flags, and the name
    that [main] hands to [makeSourceReader] when the argument is [arg]. *)
Definition chosenKind (g : Globals) : SourceKind :=
  if url g then UrlSource
  else if readFromStandardIn g then StdinSource else FileSource.

(** chidley.go, [main], lines 117 to 120: [makeSourceReader] on the
    settled name and the check of its error. *)
Definition openNamed (g : Globals) (rt : Runtime) (nm : string) : M (Source * string) :=
  made <- makeSourceReader g rt nm (url g) (readFromStandardIn g) ;;
  match snd made with
  | Some e => logFatal ("FATAL ERROR: " +:+ e)
  | None => ret (fst made, nm)
  end.

(** The ways through lines 105 to 120 of [main]: the argument is not
    there, the path cannot be made absolute, or the source is opened
    under the name [nm] after the events [front]. *)
Inductive Opening (g : Globals) (rt : Runtime) : M (Source * string) -> Prop :=
| NoArgument :
    readFromStandardIn g = false -> args rt = [] ->
    Opening g rt ([], inr (Panicked indexRange))
| NoAbsolutePath (a e : string) (more : list string) :
    readFromStandardIn g = false -> url g = false -> args rt = a :: more ->
    filepathAbs rt a = inr e ->
    Opening g rt ([FilepathAbs a; LogPrint ("FATAL ERROR: " +:+ e)], inr (OsExit 1))
| FromStandardIn :
    readFromStandardIn g = true ->
    Opening g rt (openNamed g rt "")
| FromUrl (a : string) (more : list string) :
    readFromStandardIn g = false -> url g = true -> args rt = a :: more ->
    Opening g rt (openNamed g rt a)
| FromFile (a p : string) (more : list string) :
    readFromStandardIn g = false -> url g = false -> args rt = a :: more ->
    filepathAbs rt a = inl p ->
    Opening g rt (FilepathAbs a :: fst (openNamed g rt p), snd (openNamed g rt p)).

(** How [main] settles the name [nm] under which the source is opened,
    and the events [front] of doing so: the empty name for standard
    input, the argument for a URL, the absolute path of the argument for
    a file. *)
Inductive Named (g : Globals) (rt : Runtime) : list Event -> string -> Prop :=
| NamedStandardIn :
    readFromStandardIn g = true -> Named g rt [] ""
| NamedUrl (a : string) :
    readFromStandardIn g = false -> url g = true -> args rt = [a] ->
    Named g rt [] a
| NamedFile (a p : string) :
    readFromStandardIn g = false -> url g = false -> args rt = [a] ->
    filepathAbs rt a = inl p ->
    Named g rt [FilepathAbs a] p.

(** The five courses that a run can take; [switch] is the [switch] of
    [main] on the extracted model and the name of the source, [report]
    is what [handleParameters] logs. *)
Inductive Course (g : Globals) (rt : Runtime)
    (switch : Extractor -> string -> M unit) (report : list Event) :
    list Event * Stop -> Prop :=
| CourseUsage :
    List.length (args rt) <> 1%nat -> readFromStandardIn g = false ->
    Course g rt switch report
      ((report
        ++ [Println "chidley <flags> xmlFileName|url";
            Println "xmlFileName can be .gz or .bz2: uncompressed transparently";
            FlagUsage])%list, Returned)
| CourseNoAbsolutePath (a e : string) :
    readFromStandardIn g = false -> url g = false -> args rt = [a] ->
    filepathAbs rt a = inr e ->
    Course g rt switch report
      ((report ++ [FilepathAbs a; LogPrint ("FATAL ERROR: " +:+ e)])%list, OsExit 1)
| CourseSourceFailed (front logs : list Event) (nm e : string) :
    Named g rt front nm -> forallb isLog logs = true ->
    newSource rt (chosenKind g) nm = Some e ->
    Course g rt switch report
      ((report ++ front ++ logs
        ++ [NewSource (chosenKind g) nm; LogPrint ("FATAL ERROR: " +:+ e)])%list,
       OsExit 1)
| CourseExtractFailed (front logs logs' : list Event) (nm e : string) (ex : Extractor) :
    Named g rt front nm -> forallb isLog logs = true -> forallb isLog logs' = true ->
    newSource rt (chosenKind g) nm = None ->
    extract rt (newExtractor g (mkSource (chosenKind g) nm)) = (Some e, ex) ->
    Course g rt switch report
      ((report ++ front ++ logs ++ NewSource (chosenKind g) nm :: logs'
        ++ [Extract (Some e); LogPrint ("FATAL ERROR: " +:+ e)])%list,
       OsExit 1)
| CourseSwitch (front logs logs' : list Event) (nm : string) (ex : Extractor) :
    Named g rt front nm -> forallb isLog logs = true -> forallb isLog logs' = true ->
    newSource rt (chosenKind g) nm = None ->
    extract rt (newExtractor g (mkSource (chosenKind g) nm)) = (None, ex) ->
    Course g rt switch report
      ((report ++ front ++ logs ++ NewSource (chosenKind g) nm :: logs'
        ++ Extract None :: fst (switch ex nm))%list,
       snd (finish (switch ex nm))).

(** ** The command line *)

(** [flag.Parse()], the first statement of [handleParameters] (line 75),
    on the flag set [flag.CommandLine], whose error handling is
    [flag.ExitOnError].  Either the command line parses, and the
    package-level variables hold the values [g]; or it does not (an
    undefined flag, a value that does not parse, [-h]), and the flag
    package calls [flag.Usage] and ends the process by [os.Exit] with a
    status of its own, without returning to [handleParameters]. *)
Inductive Parsed : Type :=
| FlagsSet (g : Globals)
| ParseExit (code : Z).

(** The whole process, from [flag.Parse()] on. *)
Definition process (unicodeUpper : string -> string)
    (makeType makeJavaType : Node -> string -> string -> string)
    (getFullPath : string -> string) (nk : Node -> string)
    (p : Parsed) (rt : Runtime) : list Event * Stop :=
  match p with
  | FlagsSet g => run unicodeUpper makeType makeJavaType getFullPath nk g rt
  | ParseExit code => ([FlagUsage], OsExit code)
  end.

(** ** Further sample inputs *)

Module Cases.
(** A document whose element [r] has a child without a name. *)
Definition nameless : Node :=
  mkNode "root" "" {["r" := Some (mkNode "r" "" {["" := Some (Sample.leaf "" "")]})]}.

(** The enumeration of the children of the children of [r] in the order
    of [map_to_list]. *)
Definition inOrder (r : Node) (k : string) : list (string * option Node) :=
  match children r !! k with
  | Some (Some np) => map_to_list (children np)
  | _ => []
  end.

(** An element in a namespace. *)
Definition spaced : Node := Sample.leaf "feed" "http://www.w3.org/2005/Atom".

(** Surroundings in which [os.Create] fails on every path. *)
Definition readOnly (rt : Runtime) : Runtime :=
  {| args := args rt; filepathAbs := filepathAbs rt; newSource := newSource rt;
     extract := extract rt; osCreate := fun _ => Some "permission denied";
     templateExecute := templateExecute rt;
     structsText := structsText rt; rangeRoot := rangeRoot rt;
     rangeChild := rangeChild rt |}.

(** The conversion flag and the Java flag set together. *)
Definition convertAndJava : Globals :=
  {| DEBUG := false; progress := false; attributePrefix := "Attr";
     structsToStdout := false; nameSpaceInJsonName := false;
     prettyPrint := false; codeGenConvert := true;
     readFromStandardIn := false; codeGenDir := "codegen";
     codeGenFilename := "CodeGenStructs.go"; javaAppName := "jaxb";
     writeJava := true; baseJavaDir := "java"; namePrefix := "Chi";
     nameSuffix := ""; xmlName := false; url := false; useType := false |}.
End Cases.

(** * Properties *)

(** ** Strings *)

Lemma substring_0_0 (s : string) : String.substring 0 0 s = "".
Proof. destruct s; reflexivity. Qed.

Lemma substring_0_length (s : string) :
  String.substring 0 (String.length s) s = s.
Proof. induction s as [|c s IH]; simpl; [reflexivity | now rewrite IH]. Qed.

Lemma slice_first (c : ascii) (r : string) :
  slice (String c r) 0 1 = Ok (String c "").
Proof. unfold slice. simpl. now rewrite substring_0_0. Qed.

Lemma sliceFrom_rest (c : ascii) (r : string) :
  sliceFrom (String c r) 1 = Ok r.
Proof.
  unfold sliceFrom, slice. simpl String.length.
  replace (1 <=? S (String.length r))%nat with true
    by (symmetry; apply Nat.leb_le; lia).
  rewrite Nat.leb_refl. simpl.
  rewrite Nat.sub_0_r. now rewrite substring_0_length.
Qed.

Lemma ToUpper_ascii_byte up (c : ascii) :
  isASCIIbyte c = true -> ToUpper up (String c "") = String (upperByte c) "".
Proof. intros H. unfold ToUpper. simpl. now rewrite H. Qed.

Lemma ToLower_ascii_byte low (c : ascii) :
  isASCIIbyte c = true -> ToLower low (String c "") = String (lowerByte c) "".
Proof. intros H. unfold ToLower. simpl. now rewrite H. Qed.

(** The byte that [ToUpper] puts for a lower-case letter is the
    upper-case letter 32 code points below it; every other ASCII byte
    stays. *)
Lemma upperByte_spec (c : ascii) :
  (isLower c = true ->
   isUpper (upperByte c) = true /\
   (nat_of_ascii (upperByte c) + 32 = nat_of_ascii c)%nat) /\
  (isLower c = false -> upperByte c = c).
Proof.
  unfold upperByte. split; intros H; rewrite H; [|reflexivity].
  unfold isLower in H. apply andb_prop in H as [H1 H2].
  apply Nat.leb_le in H1, H2.
  assert (Hn : nat_of_ascii (ascii_of_nat (nat_of_ascii c - 32))
               = (nat_of_ascii c - 32)%nat)
    by (apply nat_ascii_embedding; lia).
  unfold isUpper. rewrite Hn. split; [|lia].
  apply andb_true_intro. split; apply Nat.leb_le; lia.
Qed.

Lemma lowerByte_spec (c : ascii) :
  (isUpper c = true ->
   isLower (lowerByte c) = true /\
   (nat_of_ascii (lowerByte c) = nat_of_ascii c + 32)%nat) /\
  (isUpper c = false -> lowerByte c = c).
Proof.
  unfold lowerByte. split; intros H; rewrite H; [|reflexivity].
  unfold isUpper in H. apply andb_prop in H as [H1 H2].
  apply Nat.leb_le in H1, H2.
  assert (Hn : nat_of_ascii (ascii_of_nat (nat_of_ascii c + 32))
               = (nat_of_ascii c + 32)%nat)
    by (apply nat_ascii_embedding; lia).
  unfold isLower. rewrite Hn. split; [|lia].
  apply andb_true_intro. split; apply Nat.leb_le; lia.
Qed.

Lemma capitalizeFirstLetter_cons up (c : ascii) (r : string) :
  capitalizeFirstLetter up (String c r) = Ok (ToUpper up (String c "") +:+ r).
Proof.
  unfold capitalizeFirstLetter.
  rewrite slice_first. cbn [res_bind]. now rewrite sliceFrom_rest.
Qed.

Lemma lowerFirstLetter_cons low (c : ascii) (r : string) :
  lowerFirstLetter low (String c r) = Ok (ToLower low (String c "") +:+ r).
Proof.
  unfold lowerFirstLetter.
  rewrite slice_first. cbn [res_bind]. now rewrite sliceFrom_rest.
Qed.







(** ** Counting the output modes *)

Lemma wrap64_small (z : Z) : - 2 ^ 63 <= z < 2 ^ 63 -> wrap64 z = z.
Proof.
  intros H. unfold wrap64.
  rewrite Z.mod_small by lia. lia.
Qed.

Lemma countFrom_counts {Addr : Type} (mem : Addr -> bool)
    (a : list (option Addr)) (counter : Z) :
  Forall (fun p => p <> None) a ->
  0 <= counter ->
  counter + Z.of_nat (List.length a) < 2 ^ 63 ->
  countFrom mem a counter = Ok (counter + Z.of_nat (targetsTrue mem a)).
Proof.
  unfold targetsTrue.
  revert counter. induction a as [|p a IH]; intros counter Hnil Hc Hlen.
  - simpl. f_equal. lia.
  - inversion Hnil as [|? ? Hp Ha]; subst.
    destruct p as [x|]; [|congruence].
    cbn [countFrom deref res_bind List.filter pointsToTrue].
    cbn [List.length] in Hlen.
    destruct (mem x).
    + rewrite wrap64_small by lia.
      rewrite IH by (try assumption; lia).
      cbn [List.length]. f_equal. lia.
    + rewrite IH by (try assumption; lia). reflexivity.
Qed.

(** A nil pointer in the list makes the dereference [*a[i]] panic. *)
Lemma countFrom_nil_pointer {Addr : Type} (mem : Addr -> bool)
    (a : list (option Addr)) (counter : Z) :
  In None a -> countFrom mem a counter = Panic nilDeref.
Proof.
  revert counter. induction a as [|p a IH]; intros counter Hin; [destruct Hin|].
  destruct p as [x|]; [|reflexivity].
  destruct Hin as [Heq|Hin]; [discriminate|].
  cbn [countFrom deref res_bind]. now apply IH.
Qed.

Lemma outputs_count (g : Globals) :
  countNumberOfBoolsSet (load g) outputs = Ok (Z.of_nat (modesSet g)).
Proof.
  unfold modesSet, countNumberOfBoolsSet, outputs.
  cbn [countFrom deref res_bind load].
  destruct (codeGenConvert g), (structsToStdout g), (writeJava g); reflexivity.
Qed.

(** [handleParameters] logs at most one line and returns a nil error. *)
Lemma handleParameters_eq (g : Globals) :
  handleParameters g =
  ((if (1 <? modesSet g)%nat
    then [LogPrint "  ERROR: Only one of -W -J -X -V -c can be set"]
    else if (modesSet g =? 0)%nat
    then [LogPrint "  ERROR: At least one of -W -J -X -V -c must be set"]
    else []), inl None).
Proof.
  unfold handleParameters. rewrite outputs_count. unfold modesSet.
  destruct (codeGenConvert g), (structsToStdout g), (writeJava g); reflexivity.
Qed.

(** C4. For every list of non-nil boolean pointers (a Go slice has fewer
    than 2^63 elements) [countNumberOfBoolsSet] returns the number of
    pointers whose target is true; and [handleParameters] reports an
    error, by a line in the log, exactly when the number of set flags
    among [codeGenConvert], [structsToStdout] and [writeJava] differs
    from one.  The [error] that it returns is nil in either case. *)
Theorem count_and_report_output_modes :
  (forall (Addr : Type) (mem : Addr -> bool) (a : list (option Addr)),
     Forall (fun p => p <> None) a ->
     Z.of_nat (List.length a) < 2 ^ 63 ->
     countNumberOfBoolsSet mem a = Ok (Z.of_nat (targetsTrue mem a))) /\
  (forall g : Globals,
     targetsTrue (load g) outputs = modesSet g /\
     (reportsError (fst (handleParameters g)) = true <-> modesSet g <> 1%nat) /\
     snd (handleParameters g) = inl None).
Proof.
  split.
  - intros Addr mem a Hnil Hlen. unfold countNumberOfBoolsSet.
    rewrite countFrom_counts by (try assumption; lia). f_equal.
  - intros g. split.
    + unfold targetsTrue, modesSet, outputs. cbn [List.filter pointsToTrue load].
      destruct (codeGenConvert g), (structsToStdout g), (writeJava g); reflexivity.
    + rewrite handleParameters_eq. unfold modesSet. split; [|reflexivity].
      destruct (codeGenConvert g), (structsToStdout g), (writeJava g);
        cbn; split; intros H; try reflexivity; try discriminate;
        try lia; try (exfalso; apply H; reflexivity).
Qed.

Lemma count_and_report_output_modes_witness :
  countNumberOfBoolsSet (load (Sample.only AddrWriteJava)) outputs = Ok 1 /\
  reportsError (fst (handleParameters defaults)) = true.
Proof.
  destruct count_and_report_output_modes as [Hcount Hreport].
  split.
  - apply (Hcount BoolVar (load (Sample.only AddrWriteJava)) outputs).
    + repeat constructor; discriminate.
    + vm_compute. reflexivity.
  - destruct (Hreport defaults) as (_ & [_ Hlog] & _).
    apply Hlog. vm_compute. discriminate.
Defined.

(** ** The trace monad *)

Lemma bind_ok {A B : Type} (tr : list Event) (a : A) (k : A -> M B) :
  bind (tr, inl a) k = ((tr ++ fst (k a))%list, snd (k a)).
Proof. cbn. now destruct (k a). Qed.

Lemma bind_stop {A B : Type} (tr : list Event) (s : Stop) (k : A -> M B) :
  bind (tr, inr s) k = (tr, inr s).
Proof. reflexivity. Qed.

Lemma bind_emit {B : Type} (e : Event) (k : unit -> M B) :
  bind (emit e) k = (e :: fst (k tt), snd (k tt)).
Proof. unfold emit. now rewrite bind_ok. Qed.

Lemma bind_call_ok {A B : Type} (a : A) (k : A -> M B) :
  bind (call (Ok a)) k = k a.
Proof. cbn. now destruct (k a). Qed.

Lemma bind_call_panic {A B : Type} (msg : string) (k : A -> M B) :
  bind (call (Panic msg)) k = ([], inr (Panicked msg)).
Proof. reflexivity. Qed.

Lemma fst_bind {A B : Type} (m : M A) (k : A -> M B) :
  fst (bind m k) =
  match snd m with
  | inl a => (fst m ++ fst (k a))%list
  | inr _ => fst m
  end.
Proof. destruct m as [tr [a|s]]; [now rewrite bind_ok | reflexivity]. Qed.

Lemma sourcesOpened_app (t1 t2 : list Event) :
  sourcesOpened (t1 ++ t2) = (sourcesOpened t1 + sourcesOpened t2)%nat.
Proof. unfold sourcesOpened. now rewrite List.filter_app, List.length_app. Qed.

Lemma visitorsRun_app (t1 t2 : list Event) :
  visitorsRun (t1 ++ t2) = (visitorsRun t1 + visitorsRun t2)%nat.
Proof. unfold visitorsRun. now rewrite List.filter_app, List.length_app. Qed.

(** ** Opening the source *)

Lemma makeSourceReader_eq g rt nm (u s : bool) :
  let k := if u then UrlSource else if s then StdinSource else FileSource in
  makeSourceReader g rt nm u s =
  ((if DEBUG g
    then [LogPrint (match k with
                    | UrlSource => "Making UrlSource"
                    | StdinSource => "Making StdinSource"
                    | FileSource => "Making FileSource"
                    end);
          LogPrint ("Making Source:[" +:+ nm +:+ "]")]
    else []) ++ [NewSource k nm],
   inl (mkSource k nm, newSource rt k nm))%list.
Proof.
  unfold makeSourceReader.
  destruct u, s, (DEBUG g); reflexivity.
Qed.

Lemma bind_ret {A B : Type} (a : A) (k : A -> M B) : bind (ret a) k = k a.
Proof. cbn. now destruct (k a). Qed.

Lemma openSource_tail g rt nm :
  let m := bind (makeSourceReader g rt nm (url g) (readFromStandardIn g))
             (fun made => match snd made with
                          | Some e => logFatal ("FATAL ERROR: " +:+ e)
                          | None => ret (fst made, nm)
                          end) in
  forallb silent (fst m) = true /\ sourcesOpened (fst m) = 1%nat.
Proof.
  rewrite makeSourceReader_eq. cbn zeta. rewrite bind_ok. cbn [fst snd].
  destruct (DEBUG g), (newSource rt _ _); cbn; split; reflexivity.
Qed.

Lemma openSource_shape g rt :
  forallb silent (fst (openSource g rt)) = true /\
  (sourcesOpened (fst (openSource g rt)) <= 1)%nat /\
  (forall p, snd (openSource g rt) = inl p ->
             sourcesOpened (fst (openSource g rt)) = 1%nat).
Proof.
  unfold openSource.
  destruct (readFromStandardIn g) eqn:Hin; cbn [negb andb];
    [|destruct (index (args rt) 0) as [nm|msg]];
    rewrite ?andb_false_r, ?andb_true_r;
    rewrite ?bind_call_ok, ?bind_call_panic, ?bind_ret;
    try (cbn; repeat split; try lia; discriminate).
  - pose proof (openSource_tail g rt "") as [H1 H2]. rewrite Hin in H1, H2.
    cbn zeta in H1, H2. rewrite H1, H2. repeat split; lia.
  - destruct (url g) eqn:Hurl; cbn [negb].
    + rewrite bind_ret.
      pose proof (openSource_tail g rt nm) as [H1 H2]. rewrite Hin, Hurl in H1, H2.
      cbn zeta in H1, H2. rewrite H1, H2. repeat split; lia.
    + destruct (filepathAbs rt nm) as [p|e].
      * change (bind (emit (FilepathAbs nm)) (fun _ => ret p))
          with ([FilepathAbs nm], @inl string Stop p).
        rewrite bind_ok.
        pose proof (openSource_tail g rt p) as [H1 H2]. rewrite Hin, Hurl in H1, H2.
        cbn zeta in H1, H2.
        generalize dependent (bind (makeSourceReader g rt p false false)
          (fun made => match snd made with
                       | Some e => logFatal ("FATAL ERROR: " +:+ e)
                       | None => ret (fst made, p)
                       end)).
        intros m H1 H2. cbn [fst snd].
        rewrite forallb_app, sourcesOpened_app, H1, H2.
        repeat split; cbn; lia.
      * cbn. repeat split; try lia; discriminate.
Qed.

Lemma extractFrom_eq g rt source :
  extractFrom g rt source =
  ((if DEBUG g then [LogPrint "extracting"] else [])
   ++ Extract (fst (extract rt (newExtractor g source)))
   :: match fst (extract rt (newExtractor g source)) with
      | Some e => [LogPrint ("FATAL ERROR: " +:+ e)]
      | None => []
      end,
   match fst (extract rt (newExtractor g source)) with
   | Some e => inr (OsExit 1)
   | None => inl (snd (extract rt (newExtractor g source)))
   end)%list.
Proof.
  unfold extractFrom.
  destruct (DEBUG g), (extract rt (newExtractor g source)) as [[e|] ex];
    reflexivity.
Qed.

(** ** From the start of [main] to its [switch] *)

Lemma silent_no_emission (tr : list Event) :
  forallb silent tr = true ->
  forallb (fun e => negb (isEmission e) && negb (isExtract e)) tr = true.
Proof.
  intros H. apply forallb_forall. intros e He.
  apply (proj1 (forallb_forall _ _) H) in He.
  unfold silent in He. destruct e; try discriminate; reflexivity.
Qed.

Lemma Prelude_prefix rt (l : list Event) (m : M (Extractor * string)) :
  forallb silent l = true ->
  sourcesOpened l = 0%nat ->
  Prelude rt m ->
  Prelude rt ((l ++ fst m)%list, snd m).
Proof.
  intros Hl Hn Hm. destruct Hm as [tr s Htr Hsrc | pre e Hpre Hsrc | pre ex0 ex src Hpre Hsrc Hex];
    cbn [fst snd].
  - apply StoppedBefore.
    + rewrite forallb_app, Htr, (silent_no_emission l Hl). reflexivity.
    + rewrite sourcesOpened_app. lia.
  - rewrite List.app_assoc. apply ExtractFailed.
    + now rewrite forallb_app, Hl, Hpre.
    + rewrite sourcesOpened_app. lia.
  - rewrite List.app_assoc. apply (Extracted rt _ ex0).
    + now rewrite forallb_app, Hl, Hpre.
    + rewrite sourcesOpened_app. lia.
    + assumption.
Qed.

Lemma openAndExtract_prelude g rt : Prelude rt (openAndExtract g rt).
Proof.
  unfold openAndExtract.
  pose proof (openSource_shape g rt) as (Hsilent & Hle & Hone).
  destruct (openSource g rt) as [tr [[source nm]|s]]; cbn [fst snd] in *.
  - specialize (Hone _ eq_refl).
    rewrite bind_ok. cbn [fst snd]. rewrite extractFrom_eq.
    destruct (extract rt (newExtractor g source)) as [[e|] ex] eqn:Hex;
      cbn [fst snd bind].
    + rewrite List.app_assoc. apply ExtractFailed.
      * rewrite forallb_app, Hsilent. now destruct (DEBUG g).
      * rewrite sourcesOpened_app, Hone. now destruct (DEBUG g).
    + unfold ret. cbn [fst snd]. rewrite List.app_nil_r.
      rewrite List.app_assoc. apply (Extracted rt _ (newExtractor g source)).
      * rewrite forallb_app, Hsilent. now destruct (DEBUG g).
      * rewrite sourcesOpened_app, Hone. now destruct (DEBUG g).
      * assumption.
  - rewrite bind_stop. apply StoppedBefore; [now apply silent_no_emission | assumption].
Qed.

(** When the positional argument is missing and standard input is not
    selected, [main] prints the usage and returns. *)
Lemma mainUntilSwitch_usage g rt :
  List.length (args rt) <> 1%nat ->
  readFromStandardIn g = false ->
  mainUntilSwitch g rt =
  ((fst (handleParameters g)
    ++ [Println "chidley <flags> xmlFileName|url";
        Println "xmlFileName can be .gz or .bz2: uncompressed transparently";
        FlagUsage])%list,
   inr Returned).
Proof.
  intros Hargs Hin. unfold mainUntilSwitch.
  rewrite handleParameters_eq, bind_ok. cbn [fst snd].
  apply Nat.eqb_neq in Hargs. rewrite Hargs, Hin. reflexivity.
Qed.

(** Otherwise [main] goes on to open the source. *)
Lemma mainUntilSwitch_continue g rt :
  (List.length (args rt) = 1%nat \/ readFromStandardIn g = true) ->
  mainUntilSwitch g rt =
  ((fst (handleParameters g) ++ fst (openAndExtract g rt))%list,
   snd (openAndExtract g rt)).
Proof.
  intros Hok. unfold mainUntilSwitch.
  rewrite handleParameters_eq, bind_ok. cbn [fst snd].
  replace (negb (List.length (args rt) =? 1)%nat && negb (readFromStandardIn g))
    with false; [reflexivity|].
  destruct Hok as [H|H]; rewrite ?H; [reflexivity|].
  now rewrite andb_false_r.
Qed.

Lemma handleParameters_silent g :
  forallb silent (fst (handleParameters g)) = true /\
  sourcesOpened (fst (handleParameters g)) = 0%nat.
Proof.
  rewrite handleParameters_eq.
  destruct (1 <? modesSet g)%nat, (modesSet g =? 0)%nat; split; reflexivity.
Qed.

Lemma mainUntilSwitch_prelude g rt : Prelude rt (mainUntilSwitch g rt).
Proof.
  destruct (handleParameters_silent g) as [Hs Hn].
  destruct (Nat.eq_dec (List.length (args rt)) 1) as [Hargs|Hargs];
    [|destruct (readFromStandardIn g) eqn:Hin].
  - rewrite mainUntilSwitch_continue by now left.
    apply Prelude_prefix; auto using openAndExtract_prelude.
  - rewrite mainUntilSwitch_continue by now right.
    apply Prelude_prefix; auto using openAndExtract_prelude.
  - rewrite mainUntilSwitch_usage by assumption.
    apply StoppedBefore.
    + rewrite forallb_app, (silent_no_emission _ Hs). reflexivity.
    + rewrite sourcesOpened_app, Hn. cbn. lia.
Qed.

(** ** The [switch] of [main] *)

Lemma forallb_bind {A B : Type} (p : Event -> bool) (m : M A) (k : A -> M B) :
  forallb p (fst m) = true ->
  (forall a, forallb p (fst (k a)) = true) ->
  forallb p (fst (bind m k)) = true.
Proof.
  intros Hm Hk. rewrite fst_bind.
  destruct (snd m); [now rewrite forallb_app, Hm, Hk | assumption].
Qed.

Lemma forallb_call {A : Type} (p : Event -> bool) (r : Res A) :
  forallb p (fst (call r)) = true.
Proof. now destruct r. Qed.

Lemma forallb_executeTemplate (p : Event -> bool) rt tmpl data :
  p (Execute tmpl data) = true ->
  (forall msg, p (LogPrint msg) = true) ->
  forallb p (fst (executeTemplate rt tmpl data)) = true.
Proof.
  intros He Hl. unfold executeTemplate.
  destruct (templateExecute rt tmpl); cbn; now rewrite He, ?Hl.
Qed.

Lemma forallb_createOrPanic (p : Event -> bool) rt path :
  p (Create path) = true ->
  (forall msg, p (LogPrint msg) = true) ->
  forallb p (fst (createOrPanic rt path)) = true.
Proof.
  intros He Hl. unfold createOrPanic.
  destruct (osCreate rt path); cbn; now rewrite He, ?Hl.
Qed.

Lemma last_cons {A : Type} (x d : A) (l : list A) :
  List.last (x :: l) d = List.last l x.
Proof.
  revert x d. induction l as [|y l IH]; intros x d; [reflexivity|].
  change (List.last (x :: y :: l) d) with (List.last (y :: l) d).
  now rewrite !(IH y).
Qed.

(** The loop of the Java case visits every entry that the range yields,
    in order, and leaves the last of them in [onlyChild]. *)
Lemma visitChildren_eq (rng : list (string * option Node)) (onlyChild : option Node) :
  visitChildren rng onlyChild =
  (map (fun kv => Visit PrintJavaJaxbVisitor (snd kv)) rng,
   inl (List.last (map snd rng) onlyChild)).
Proof.
  revert onlyChild. induction rng as [|[k child] rng IH]; intros onlyChild.
  - reflexivity.
  - cbn [visitChildren]. rewrite bind_emit, IH. cbn [fst snd map].
    now rewrite last_cons.
Qed.

Lemma forallb_visits (rng : list (string * option Node)) :
  forallb afterJavaVisitor
    (map (fun kv => Visit PrintJavaJaxbVisitor (snd kv)) rng) = true.
Proof. induction rng; [reflexivity | assumption]. Qed.

Section Switch.
Variable unicodeUpper : string -> string.
Variable makeType makeJavaType : Node -> string -> string -> string.
Variable getFullPath : string -> string.
Variable nk : Node -> string.

Lemma emitConversionCode_shape g rt ex src :
  exists tail,
    fst (emitConversionCode unicodeUpper makeType getFullPath g rt ex src) =
    WriterOpen stringWriter :: VisitorInit PrintGoStructVisitor
    :: Visit PrintGoStructVisitor (root ex) :: WriterClose stringWriter :: tail /\
    forallb afterGoVisitor tail = true.
Proof.
  unfold emitConversionCode. rewrite !bind_emit. cbn [fst snd].
  eexists; split; [reflexivity|].
  apply forallb_bind; [apply forallb_call|]. intros xt.
  apply forallb_bind; [apply forallb_call|]. intros oneDown.
  now apply forallb_executeTemplate.
Qed.

Lemma printPackageInfo_afterJava rt node javaDir javaPackage attrs nsTags :
  forallb afterJavaVisitor
    (fst (printPackageInfo nk rt node javaDir javaPackage attrs nsTags)) = true.
Proof.
  unfold printPackageInfo.
  apply forallb_bind; [apply forallb_call|]. intros sp.
  destruct (negb (String.eqb sp "")); [|reflexivity].
  apply forallb_bind; [apply forallb_call|]. intros key. cbn zeta.
  apply forallb_bind; [now apply forallb_createOrPanic|]. intros _.
  now apply forallb_executeTemplate.
Qed.

Lemma emitJava_shape g rt ex src :
  exists tail,
    fst (emitJava makeJavaType getFullPath nk g rt ex src) =
    RemoveAll (baseJavaDir g) :: MkdirAll (javaDirOf g +:+ "/xml") 493
    :: VisitorInit PrintJavaJaxbVisitor :: tail /\
    forallb afterJavaVisitor tail = true.
Proof.
  unfold emitJava. cbn zeta. rewrite !bind_emit. cbn [fst snd].
  eexists; split; [reflexivity|].
  apply forallb_bind; [apply forallb_call|]. intros _.
  apply forallb_bind; [rewrite visitChildren_eq; apply forallb_visits|].
  intros onlyChild.
  apply forallb_bind; [apply forallb_call|]. intros className.
  apply forallb_bind.
  { unfold printJavaJaxbMain. rewrite bind_emit. cbn [fst snd forallb afterJavaVisitor].
    now apply forallb_executeTemplate. }
  intros _.
  apply forallb_bind; [apply printPackageInfo_afterJava|]. intros _.
  unfold printMavenPom.
  apply forallb_bind; [now apply forallb_createOrPanic|]. intros _.
  now apply forallb_executeTemplate.
Qed.

#[local] Abbreviation emitOutput' := (emitOutput unicodeUpper makeType makeJavaType getFullPath nk).
#[local] Abbreviation run' := (run unicodeUpper makeType makeJavaType getFullPath nk).

(** The events of the [switch]: nothing when no mode is selected, else
    the events of the first selected mode, with one visitor set up. *)
Lemma emitOutput_shape g rt ex src :
  (modesSet g = 0%nat /\ fst (emitOutput' g rt ex src) = []) \/
  (exists front v tail,
     fst (emitOutput' g rt ex src) = (front ++ VisitorInit v :: tail)%list /\
     forallb (fun e => isEmission e && negb (isVisitorInit e)) front = true /\
     forallb (fun e => (isEmission e || negb (isOutput e))
                       && negb (isVisitorInit e) && negb (isExtract e)
                       && negb (isNewSource e)) tail = true /\
     v = (if codeGenConvert g || structsToStdout g
          then PrintGoStructVisitor else PrintJavaJaxbVisitor) /\
     (1 <= modesSet g)%nat).
Proof.
  unfold emitOutput, modesSet.
  destruct (codeGenConvert g) eqn:Hc;
    [|destruct (structsToStdout g) eqn:Hs; [|destruct (writeJava g) eqn:Hj]].
  - right. destruct (emitConversionCode_shape g rt ex src) as (tail & -> & Htail).
    exists [WriterOpen stringWriter], PrintGoStructVisitor,
      (Visit PrintGoStructVisitor (root ex) :: WriterClose stringWriter :: tail).
    repeat split; cbn; try lia.
    apply forallb_forall. intros e He.
    apply (proj1 (forallb_forall _ _) Htail) in He.
    destruct e as [| | | | | | | | | |? []| | | |]; try discriminate; reflexivity.
  - right.
    exists [WriterOpen stdoutWriter], PrintGoStructVisitor,
      [Visit PrintGoStructVisitor (root ex); WriterClose stdoutWriter].
    repeat split; cbn; lia.
  - right. destruct (emitJava_shape g rt ex src) as (tail & -> & Htail).
    exists [RemoveAll (baseJavaDir g); MkdirAll (javaDirOf g +:+ "/xml") 493],
      PrintJavaJaxbVisitor, tail.
    repeat split; cbn; try lia.
    apply forallb_forall. intros e He.
    apply (proj1 (forallb_forall _ _) Htail) in He.
    destruct e as [| | | | | | | |[]|? []|? []| | | |]; try discriminate; reflexivity.
  - left. split; reflexivity.
Qed.

(** A run is what happens before the [switch] followed by the
    [switch]. *)
Lemma run_reached g rt pre ex src :
  mainUntilSwitch g rt = (pre, inl (ex, src)) ->
  run' g rt =
  ((pre ++ fst (emitOutput' g rt ex src))%list,
   match snd (emitOutput' g rt ex src) with
   | inl _ => Returned
   | inr s => s
   end).
Proof.
  intros H. unfold run, main. rewrite H, bind_ok. cbn [fst snd finish].
  now destruct (snd (emitOutput' g rt ex src)).
Qed.

Lemma run_stopped g rt pre s :
  mainUntilSwitch g rt = (pre, inr s) -> run' g rt = (pre, s).
Proof. intros H. unfold run, main. now rewrite H, bind_stop. Qed.
End Switch.

(** ** Whole runs *)

Lemma forallb_In {A : Type} (p : A -> bool) (l : list A) (x : A) :
  forallb p l = true -> In x l -> p x = true.
Proof. intros H. now apply forallb_forall. Qed.

Lemma forallb_impl {A : Type} (p q : A -> bool) (l : list A) :
  (forall x, p x = true -> q x = true) ->
  forallb p l = true -> forallb q l = true.
Proof.
  intros Hpq H. apply forallb_forall. intros x Hx.
  apply Hpq. now apply (forallb_In p l).
Qed.

Ltac weaken H :=
  refine (forallb_impl _ _ _ _ H);
  let e := fresh "e" in
  let He := fresh "He" in
  intros e He; destruct e; cbn in He |- *;
  try discriminate He; try reflexivity; try exact He.

(** An event that sits behind a marker in [l1 ++ x :: l2] and is unlike
    everything up to the marker comes after the marker. *)
Lemma behind_marker (p : Event -> bool) (l1 l2 pre post : list Event) (x e : Event) :
  (l1 ++ x :: l2 = pre ++ e :: post)%list ->
  forallb p (l1 ++ [x]) = true ->
  p e = false ->
  In x pre.
Proof.
  revert pre. induction l1 as [|a l1 IH]; intros pre Heq Hp He.
  - destruct pre as [|y pre]; cbn in Heq; inversion Heq; subst.
    + cbn in Hp. rewrite He in Hp. discriminate.
    + now left.
  - cbn in Hp. apply andb_prop in Hp as [Ha Hp].
    destruct pre as [|y pre]; cbn in Heq; inversion Heq; subst.
    + rewrite He in Ha. discriminate.
    + right. now apply (IH pre).
Qed.

Lemma no_visitor (l : list Event) :
  forallb (fun e => negb (isVisitorInit e)) l = true -> visitorsRun l = 0%nat.
Proof.
  induction l as [|a l IH]; [reflexivity|]. cbn. intros H.
  apply andb_prop in H as [Ha Hl]. unfold visitorsRun in *. cbn.
  destruct (isVisitorInit a); [discriminate|]. now apply IH.
Qed.

Section Runs.
Variable unicodeUpper : string -> string.
Variable makeType makeJavaType : Node -> string -> string -> string.
Variable getFullPath : string -> string.
Variable nk : Node -> string.

#[local] Abbreviation emitOutput' :=
  (emitOutput unicodeUpper makeType makeJavaType getFullPath nk).
#[local] Abbreviation run' :=
  (run unicodeUpper makeType makeJavaType getFullPath nk).

Lemma emitOutput_no_extract g rt ex src :
  forallb (fun e => (isEmission e || negb (isOutput e)) && negb (isExtract e)
                    && negb (isNewSource e))
    (fst (emitOutput' g rt ex src)) = true.
Proof.
  destruct (emitOutput_shape unicodeUpper makeType makeJavaType getFullPath nk
              g rt ex src)
    as [[_ ->] | (front & v & tail & -> & Hfront & Htail & _)]; [reflexivity|].
  rewrite forallb_app. cbn [forallb].
  apply andb_true_intro. split; [weaken Hfront|].
  apply andb_true_intro. split; [reflexivity | weaken Htail].
Qed.

(** Emitter code is reached only after [extract] has returned without
    error. *)
Lemma emission_only_after_extract g rt pre e post :
  fst (run' g rt) = (pre ++ e :: post)%list ->
  isEmission e = true ->
  In (Extract None) pre.
Proof.
  intros Heq He.
  pose proof (mainUntilSwitch_prelude g rt) as HP.
  destruct (mainUntilSwitch g rt) as [tr r] eqn:Hm.
  inversion HP as [tr' s Hq Hsrc | pre0 e0 Hq Hsrc | pre0 ex0 ex src Hq Hsrc Hex]; subst.
  - rewrite (run_stopped _ _ _ _ _ _ _ _ _ Hm) in Heq. cbn [fst] in Heq.
    assert (Hin : In e (pre ++ e :: post)) by (apply in_or_app; right; now left).
    rewrite <- Heq in Hin. apply (forallb_In _ _ _ Hq) in Hin.
    rewrite He in Hin. discriminate.
  - rewrite (run_stopped _ _ _ _ _ _ _ _ _ Hm) in Heq. cbn [fst] in Heq.
    assert (Hin : In e (pre ++ e :: post)) by (apply in_or_app; right; now left).
    rewrite <- Heq in Hin. apply in_app_or in Hin as [Hin|Hin].
    + apply (forallb_In _ _ _ (silent_no_emission _ Hq)) in Hin.
      rewrite He in Hin. discriminate.
    + destruct Hin as [<-|[<-|[]]]; discriminate.
  - rewrite (run_reached _ _ _ _ _ _ _ _ _ _ Hm) in Heq. cbn [fst] in Heq.
    rewrite <- List.app_assoc in Heq. cbn [app] in Heq.
    apply (behind_marker (fun e => negb (isEmission e)) _ _ _ _ _ _ Heq).
    + rewrite forallb_app. cbn.
      apply andb_true_intro. split; [weaken Hq | reflexivity].
    + now rewrite He.
Qed.

(** At most one emitter visitor is set up in a run. *)
Lemma at_most_one_visitor g rt : (visitorsRun (fst (run' g rt)) <= 1)%nat.
Proof.
  pose proof no_visitor as Hzero.
  pose proof (mainUntilSwitch_prelude g rt) as HP.
  destruct (mainUntilSwitch g rt) as [tr r] eqn:Hm.
  assert (Hsilent : forall l, forallb silent l = true -> visitorsRun l = 0%nat).
  { intros l Hl. apply Hzero. weaken Hl. }
  inversion HP as [tr' s Hq Hsrc | pre0 e0 Hq Hsrc | pre0 ex0 ex src Hq Hsrc Hex]; subst.
  - rewrite (run_stopped _ _ _ _ _ _ _ _ _ Hm). cbn [fst].
    rewrite Hzero; [lia|]. weaken Hq.
  - rewrite (run_stopped _ _ _ _ _ _ _ _ _ Hm). cbn [fst].
    rewrite visitorsRun_app, (Hsilent _ Hq). cbn. lia.
  - rewrite (run_reached _ _ _ _ _ _ _ _ _ _ Hm). cbn [fst].
    rewrite !visitorsRun_app, (Hsilent _ Hq).
    destruct (emitOutput_shape unicodeUpper makeType makeJavaType getFullPath nk
                g rt ex src)
      as [[_ ->] | (front & v & tail & -> & Hfront & Htail & _)]; [cbn; lia|].
    change (VisitorInit v :: tail) with ([VisitorInit v] ++ tail)%list.
    rewrite !visitorsRun_app.
    rewrite (Hzero front), (Hzero tail); [cbn; lia | weaken Htail | weaken Hfront].
Qed.

Lemma no_new_source (l : list Event) :
  forallb (fun e => negb (isNewSource e)) l = true -> sourcesOpened l = 0%nat.
Proof.
  induction l as [|a l IH]; [reflexivity|]. cbn. intros H.
  apply andb_prop in H as [Ha Hl]. unfold sourcesOpened in *. cbn.
  destruct (isNewSource a); [discriminate|]. now apply IH.
Qed.

(** C2. When [extract] is called and returns an error, the run logs
    "FATAL ERROR: " followed by the error as its last event and exits
    with status 1; no emitter event and no output event occurs anywhere
    in the run, so nothing of the partially built tree is emitted. *)
Theorem extraction_failure_stops_before_emission g rt (err : string) :
  In (Extract (Some err)) (fst (run' g rt)) ->
  snd (run' g rt) = OsExit 1 /\
  (exists pre,
     fst (run' g rt)
     = (pre ++ [Extract (Some err); LogPrint ("FATAL ERROR: " +:+ err)])%list) /\
  forallb (fun e => negb (isOutput e)) (fst (run' g rt)) = true.
Proof.
  intros Hin.
  pose proof (mainUntilSwitch_prelude g rt) as HP.
  destruct (mainUntilSwitch g rt) as [tr r] eqn:Hm.
  inversion HP as [tr' s Hq Hsrc | pre0 e0 Hq Hsrc | pre0 ex0 ex src Hq Hsrc Hex]; subst.
  - rewrite (run_stopped _ _ _ _ _ _ _ _ _ Hm) in *. cbn [fst] in Hin.
    apply (forallb_In _ _ _ Hq) in Hin. discriminate.
  - rewrite (run_stopped _ _ _ _ _ _ _ _ _ Hm) in *. cbn [fst snd] in *.
    apply in_app_or in Hin as [Hin|Hin].
    + apply (forallb_In _ _ _ Hq) in Hin. discriminate.
    + destruct Hin as [Heq|[Heq|[]]]; [|discriminate].
      inversion Heq; subst. split; [reflexivity|]. split; [now exists pre0|].
      rewrite forallb_app. apply andb_true_intro. split; [weaken Hq | reflexivity].
  - rewrite (run_reached _ _ _ _ _ _ _ _ _ _ Hm) in *. cbn [fst snd] in *.
    apply in_app_or in Hin as [Hin|Hin].
    + apply in_app_or in Hin as [Hin|Hin].
      * apply (forallb_In _ _ _ Hq) in Hin. discriminate.
      * destruct Hin as [Heq|[]]. discriminate.
    + apply (forallb_In _ _ _ (emitOutput_no_extract g rt ex src)) in Hin.
      discriminate.
Qed.

(** When the [switch] is reached and at least one mode is selected,
    exactly one emitter visitor is set up. *)
Lemma one_visitor_when_mode_selected g rt pre ex src :
  mainUntilSwitch g rt = (pre, inl (ex, src)) ->
  (1 <= modesSet g)%nat ->
  visitorsRun (fst (run' g rt)) = 1%nat.
Proof.
  intros Hm Hmode.
  pose proof (at_most_one_visitor g rt) as Hle.
  rewrite (run_reached _ _ _ _ _ _ _ _ _ _ Hm) in *. cbn [fst] in *.
  rewrite visitorsRun_app in *.
  destruct (emitOutput_shape unicodeUpper makeType makeJavaType getFullPath nk
              g rt ex src)
    as [[H0 _] | (front & v & tail & Heq & _)]; [lia|].
  rewrite Heq in *.
  change (VisitorInit v :: tail) with ([VisitorInit v] ++ tail)%list in *.
  rewrite !visitorsRun_app in *. cbn in *. lia.
Qed.

Lemma sourcesOpened_run g rt :
  (sourcesOpened (fst (run' g rt)) <= 1)%nat /\
  (forall x, In (Extract x) (fst (run' g rt)) ->
             sourcesOpened (fst (run' g rt)) = 1%nat).
Proof.
  pose proof (mainUntilSwitch_prelude g rt) as HP.
  destruct (mainUntilSwitch g rt) as [tr r] eqn:Hm.
  inversion HP as [tr' s Hq Hsrc | pre0 e0 Hq Hsrc | pre0 ex0 ex src Hq Hsrc Hex]; subst.
  - rewrite (run_stopped _ _ _ _ _ _ _ _ _ Hm). cbn [fst]. split; [assumption|].
    intros x Hin. apply (forallb_In _ _ _ Hq) in Hin. discriminate.
  - rewrite (run_stopped _ _ _ _ _ _ _ _ _ Hm). cbn [fst].
    rewrite sourcesOpened_app, Hsrc. cbn. split; [lia | reflexivity].
  - rewrite (run_reached _ _ _ _ _ _ _ _ _ _ Hm). cbn [fst].
    rewrite !sourcesOpened_app, Hsrc.
    rewrite (no_new_source (fst (emitOutput' g rt ex src)));
      [cbn; split; [lia | reflexivity]|].
    pose proof (emitOutput_no_extract g rt ex src) as H. weaken H.
Qed.

(** C7. [makeSourceReader] opens exactly one source and returns it: a
    [UrlSource] when [url] is true, whatever [standardIn] is; a
    [StdinSource] when [url] is false and [standardIn] is true; a
    [FileSource] when both are false.  A run opens at most one source,
    and exactly one whenever it gets as far as calling [extract]. *)
Theorem one_source_chosen_by_flags g rt (nm : string) :
  (forall standardIn,
     snd (makeSourceReader g rt nm true standardIn)
     = inl (mkSource UrlSource nm, newSource rt UrlSource nm) /\
     sourcesOpened (fst (makeSourceReader g rt nm true standardIn)) = 1%nat) /\
  (snd (makeSourceReader g rt nm false true)
   = inl (mkSource StdinSource nm, newSource rt StdinSource nm) /\
   sourcesOpened (fst (makeSourceReader g rt nm false true)) = 1%nat) /\
  (snd (makeSourceReader g rt nm false false)
   = inl (mkSource FileSource nm, newSource rt FileSource nm) /\
   sourcesOpened (fst (makeSourceReader g rt nm false false)) = 1%nat) /\
  (sourcesOpened (fst (run' g rt)) <= 1)%nat /\
  (forall x, In (Extract x) (fst (run' g rt)) ->
             sourcesOpened (fst (run' g rt)) = 1%nat).
Proof.
  repeat split; try (intros; rewrite makeSourceReader_eq; cbn zeta;
                     cbn [fst snd]; try reflexivity;
                     rewrite sourcesOpened_app; now destruct (DEBUG g)).
  - apply sourcesOpened_run.
  - apply sourcesOpened_run.
Qed.

(** ** The Java case *)

Lemma append_cons (x : ascii) (a b : string) :
  String x a +:+ b = String x (a +:+ b).
Proof. reflexivity. Qed.

Lemma append_assoc (a b c : string) : (a +:+ b) +:+ c = a +:+ (b +:+ c).
Proof.
  induction a as [|x a IH]; [reflexivity|].
  now rewrite !append_cons, IH.
Qed.

Lemma prefix_append (a b : string) : String.prefix a (a +:+ b) = true.
Proof.
  induction a as [|x a IH]; [now destruct b|].
  rewrite append_cons. simpl.
  destruct (ascii_dec x x); [assumption | congruence].
Qed.

Lemma javaDir_under_base g :
  String.prefix (baseJavaDir g +:+ "/") (javaDirOf g +:+ "/xml") = true.
Proof.
  replace (javaDirOf g +:+ "/xml")
    with ((baseJavaDir g +:+ "/")
          +:+ (mavenJavaBase +:+ "/" +:+ javaBasePackagePath +:+ "/"
               +:+ javaAppName g +:+ "/xml")).
  - apply prefix_append.
  - unfold javaDirOf. rewrite !append_assoc. reflexivity.
Qed.

Lemma no_emission_no_files (l : list Event) :
  forallb (fun e => negb (isEmission e)) l = true ->
  forallb (fun e => negb (touchesFiles e)) l = true.
Proof. intros H. weaken H. Qed.

Lemma run_java g rt pre ex src :
  mainUntilSwitch g rt = (pre, inl (ex, src)) ->
  codeGenConvert g = false -> structsToStdout g = false -> writeJava g = true ->
  run' g rt =
  ((pre ++ fst (emitJava makeJavaType getFullPath nk g rt ex src))%list,
   match snd (emitJava makeJavaType getFullPath nk g rt ex src) with
   | inl _ => Returned
   | inr s => s
   end).
Proof.
  intros Hm Hc Hs Hj. rewrite (run_reached _ _ _ _ _ _ _ _ _ _ Hm).
  unfold emitOutput. now rewrite Hc, Hs, Hj.
Qed.

Lemma reached_no_files g rt pre ex src :
  mainUntilSwitch g rt = (pre, inl (ex, src)) ->
  forallb (fun e => negb (touchesFiles e)) pre = true.
Proof.
  intros Hm. pose proof (mainUntilSwitch_prelude g rt) as HP. rewrite Hm in HP.
  inversion HP as [| | pre0 ex0 ex' src' Hq Hsrc Hex]; subst.
  rewrite forallb_app. apply andb_true_intro. split; [weaken Hq | reflexivity].
Qed.

(** C5. In the Java case the first thing that touches the file system
    is [os.RemoveAll(baseJavaDir)], immediately followed by
    [os.MkdirAll] of a directory below [baseJavaDir]; the visits, the
    class writer, the created files and the template output all come
    after these two calls, and nothing is removed after them.  No other
    run touches the file system at all. *)
Theorem java_directory_cleared_before_writing g rt :
  String.prefix (baseJavaDir g +:+ "/") (javaDirOf g +:+ "/xml") = true /\
  (forallb (fun e => negb (touchesFiles e)) (fst (run' g rt)) = true \/
   exists pre post,
     fst (run' g rt)
     = (pre ++ RemoveAll (baseJavaDir g)
            :: MkdirAll (javaDirOf g +:+ "/xml") 493
            :: VisitorInit PrintJavaJaxbVisitor :: post)%list /\
     forallb (fun e => negb (touchesFiles e)) pre = true /\
     forallb afterJavaVisitor post = true) /\
  (forall pre ex src,
     mainUntilSwitch g rt = (pre, inl (ex, src)) ->
     codeGenConvert g = false -> structsToStdout g = false ->
     writeJava g = true ->
     exists post,
       fst (run' g rt)
       = (pre ++ RemoveAll (baseJavaDir g)
              :: MkdirAll (javaDirOf g +:+ "/xml") 493
              :: VisitorInit PrintJavaJaxbVisitor :: post)%list /\
       forallb (fun e => negb (touchesFiles e)) pre = true /\
       forallb afterJavaVisitor post = true).
Proof.
  assert (Hjava : forall pre ex src,
     mainUntilSwitch g rt = (pre, inl (ex, src)) ->
     codeGenConvert g = false -> structsToStdout g = false ->
     writeJava g = true ->
     exists post,
       fst (run' g rt)
       = (pre ++ RemoveAll (baseJavaDir g)
              :: MkdirAll (javaDirOf g +:+ "/xml") 493
              :: VisitorInit PrintJavaJaxbVisitor :: post)%list /\
       forallb (fun e => negb (touchesFiles e)) pre = true /\
       forallb afterJavaVisitor post = true).
  { intros pre ex src Hm Hc Hs Hj.
    rewrite (run_java _ _ _ _ _ Hm Hc Hs Hj). cbn [fst].
    destruct (emitJava_shape makeJavaType getFullPath nk g rt ex src)
      as (tail & -> & Htail).
    exists tail. split; [reflexivity|]. split; [|assumption].
    apply (reached_no_files _ _ _ _ _ Hm). }
  split; [apply javaDir_under_base|]. split; [|exact Hjava].
  pose proof (mainUntilSwitch_prelude g rt) as HP.
  destruct (mainUntilSwitch g rt) as [tr r] eqn:Hm.
  inversion HP as [tr' s Hq Hsrc | pre0 e0 Hq Hsrc | pre0 ex0 ex src Hq Hsrc Hex]; subst.
  - left. rewrite (run_stopped _ _ _ _ _ _ _ _ _ Hm). cbn [fst]. weaken Hq.
  - left. rewrite (run_stopped _ _ _ _ _ _ _ _ _ Hm). cbn [fst].
    rewrite forallb_app. apply andb_true_intro. split; [weaken Hq | reflexivity].
  - destruct (codeGenConvert g) eqn:Hc;
      [|destruct (structsToStdout g) eqn:Hs; [|destruct (writeJava g) eqn:Hj]].
    + left. rewrite (run_reached _ _ _ _ _ _ _ _ _ _ Hm). cbn [fst].
      unfold emitOutput. rewrite Hc.
      destruct (emitConversionCode_shape unicodeUpper makeType getFullPath
                  g rt ex src) as (tail & -> & Htail).
      rewrite forallb_app. apply andb_true_intro.
      split; [apply (reached_no_files _ _ _ _ _ Hm)|].
      cbn. weaken Htail. destruct data; try discriminate He; reflexivity.
    + left. rewrite (run_reached _ _ _ _ _ _ _ _ _ _ Hm). cbn [fst].
      unfold emitOutput. rewrite Hc, Hs. cbn.
      rewrite forallb_app. apply andb_true_intro.
      split; [apply (reached_no_files _ _ _ _ _ Hm) | reflexivity].
    + right. destruct (Hjava _ _ _ eq_refl eq_refl eq_refl eq_refl) as (post & H).
      now exists (pre0 ++ [Extract None])%list, post.
    + left. rewrite (run_reached _ _ _ _ _ _ _ _ _ _ Hm). cbn [fst].
      unfold emitOutput. rewrite Hc, Hs, Hj. cbn. rewrite List.app_nil_r.
      apply (reached_no_files _ _ _ _ _ Hm).
Qed.

Lemma RangeOf_empty {V : Type} (m : gmap string V) (rng : list (string * V)) :
  RangeOf m rng -> m = ∅ -> rng = [].
Proof.
  unfold RangeOf. intros H ->. rewrite map_to_list_empty in H.
  now apply Permutation_nil_r.
Qed.

Lemma last_snoc {A : Type} (l : list A) (x d : A) : List.last (l ++ [x]) d = x.
Proof. apply List.last_last. Qed.

(** The events of the Java case up to the end of the loop over the
    children of the root. *)
Lemma emitJava_loop g rt ex src r :
  root ex = Some r ->
  emitJava makeJavaType getFullPath nk g rt ex src =
  bind
    ([RemoveAll (baseJavaDir g); MkdirAll (javaDirOf g +:+ "/xml") 493;
      VisitorInit PrintJavaJaxbVisitor]
     ++ map (fun kv => Visit PrintJavaJaxbVisitor (snd kv)) (rangeRoot rt),
     inl (List.last (map snd (rangeRoot rt)) None))%list
    (fun onlyChild =>
       className <- call (callMakeJavaType makeJavaType onlyChild (namePrefix g) "") ;;
       printJavaJaxbMain rt className (javaDirOf g)
         (javaBasePackage +:+ "." +:+ javaAppName g) (getFullPath src) ;;
       printPackageInfo nk rt onlyChild (javaDirOf g)
         (javaBasePackage +:+ "." +:+ javaAppName g)
         (globalTagAttributes ex) (nameSpaceTagMap ex) ;;
       printMavenPom rt (baseJavaDir g +:+ "/pom.xml") (javaAppName g)).
Proof.
  intros Hroot. unfold emitJava. cbn zeta. rewrite Hroot.
  fold (javaDirOf g).
  rewrite visitChildren_eq. unfold emit, field, call, ret.
  rewrite !bind_ok. cbn [fst snd app]. reflexivity.
Qed.

Lemma printJavaJaxbMain_eq rt (cls dir pkg file : string) :
  printJavaJaxbMain rt cls dir pkg file =
  (JavaClassWriter dir pkg "Main"
   :: Execute "chidleyJaxbGenClass"
        (DataJaxbMain {| PackageName := pkg; BaseXMLClassName := cls;
                         SourceXMLFilename := file |})
   :: match templateExecute rt "chidleyJaxbGenClass" with
      | Some err => [LogPrint ("executing template: " +:+ err)]
      | None => []
      end,
   inl tt).
Proof.
  unfold printJavaJaxbMain, executeTemplate.
  now destruct (templateExecute rt "chidleyJaxbGenClass").
Qed.

(** C9. In the Java case, with a non-nil root: when the root has no
    children the loop leaves [onlyChild] nil, and the run panics on a nil
    pointer dereference right after the visitor is set up, before any
    class is written; when the root has children, every child that the
    range yields is visited and the one yielded last is the base
    element: its Java type name is the class name handed to the template
    of the main class.  When that last entry is nil the run panics in
    the same way. *)
Theorem java_base_element_is_last_child g rt pre ex src r :
  mainUntilSwitch g rt = (pre, inl (ex, src)) ->
  codeGenConvert g = false -> structsToStdout g = false -> writeJava g = true ->
  root ex = Some r ->
  RangeOf (children r) (rangeRoot rt) ->
  let visited :=
    (pre ++ [RemoveAll (baseJavaDir g); MkdirAll (javaDirOf g +:+ "/xml") 493;
             VisitorInit PrintJavaJaxbVisitor]
         ++ map (fun kv => Visit PrintJavaJaxbVisitor (snd kv)) (rangeRoot rt))%list in
  (children r = ∅ ->
     run' g rt =
     ((pre ++ [RemoveAll (baseJavaDir g); MkdirAll (javaDirOf g +:+ "/xml") 493;
               VisitorInit PrintJavaJaxbVisitor])%list,
      Panicked nilDeref)) /\
  (forall front k c,
     rangeRoot rt = (front ++ [(k, Some c)])%list ->
     exists post,
       fst (run' g rt) =
       (visited
        ++ JavaClassWriter (javaDirOf g)
             (javaBasePackage +:+ "." +:+ javaAppName g) "Main"
        :: Execute "chidleyJaxbGenClass"
             (DataJaxbMain
                {| PackageName := javaBasePackage +:+ "." +:+ javaAppName g;
                   BaseXMLClassName := makeJavaType c (namePrefix g) "";
                   SourceXMLFilename := getFullPath src |})
        :: post)%list) /\
  (forall front k,
     rangeRoot rt = (front ++ [(k, None)])%list ->
     run' g rt = (visited, Panicked nilDeref)).
Proof.
  intros Hm Hc Hs Hj Hroot Hrng visited. subst visited.
  rewrite (run_java _ _ _ _ _ Hm Hc Hs Hj).
  rewrite (emitJava_loop _ _ _ _ _ Hroot).
  split; [|split].
  - intros Hempty. rewrite (RangeOf_empty _ _ Hrng Hempty). reflexivity.
  - intros front k c Heq. rewrite bind_ok. cbn [fst snd].
    assert (Hlast : List.last (map snd (rangeRoot rt)) None = Some c)
      by (rewrite Heq, map_app; apply List.last_last).
    rewrite Hlast. unfold callMakeJavaType, field. rewrite bind_call_ok.
    rewrite printJavaJaxbMain_eq, bind_ok. cbn [fst snd].
    match goal with
    | |- context [((JavaClassWriter _ _ _ :: _ :: ?log) ++ ?rest)%list] =>
        exists (log ++ rest)%list
    end.
    rewrite <- !List.app_assoc. reflexivity.
  - intros front k Heq. rewrite bind_ok. cbn [fst snd].
    assert (Hlast : List.last (map snd (rangeRoot rt)) None = None)
      by (rewrite Heq, map_app; apply List.last_last).
    rewrite Hlast. cbn. now rewrite List.app_nil_r.
Qed.

(** ** Errors of the command line *)

(** Every run starts with what [handleParameters] logs. *)
Lemma mainUntilSwitch_starts_with_report g rt :
  exists rest,
    fst (mainUntilSwitch g rt) = (fst (handleParameters g) ++ rest)%list.
Proof.
  destruct (Nat.eq_dec (List.length (args rt)) 1) as [Hargs|Hargs];
    [|destruct (readFromStandardIn g) eqn:Hin].
  - rewrite mainUntilSwitch_continue by now left. eexists; reflexivity.
  - rewrite mainUntilSwitch_continue by now right. eexists; reflexivity.
  - rewrite mainUntilSwitch_usage by assumption. eexists; reflexivity.
Qed.


Lemma report_when_not_one_mode g :
  modesSet g <> 1%nat -> reportsError (fst (handleParameters g)) = true.
Proof.
  intros Hmodes. rewrite handleParameters_eq. unfold modesSet in *.
  destruct (codeGenConvert g), (structsToStdout g), (writeJava g);
    try reflexivity; cbn in Hmodes; congruence.
Qed.

(** C3 on the code.  When no output mode is selected and the run gets
    to the [switch] (an argument is there or standard input is selected,
    the source opens, the document is extracted without error), the log
    holds the report that a mode must be set, the last event before the
    [switch] is the successful extraction, no case of the [switch] is
    taken, and [main] returns with status zero without any emitter
    visitor having run. *)
Theorem no_mode_selected_runs_no_emitter g rt pre ex src :
  modesSet g = 0%nat ->
  mainUntilSwitch g rt = (pre, inl (ex, src)) ->
  reportsError pre = true /\
  (exists before, pre = (before ++ [Extract None])%list) /\
  run' g rt = (pre, Returned) /\
  visitorsRun (fst (run' g rt)) = 0%nat /\
  exitStatus (snd (run' g rt)) = 0.
Proof.
  intros Hmodes Hm.
  assert (Hrun : run' g rt = (pre, Returned)).
  { rewrite (run_reached _ _ _ _ _ _ _ _ _ _ Hm). unfold emitOutput.
    unfold modesSet in Hmodes.
    destruct (codeGenConvert g), (structsToStdout g), (writeJava g);
      try discriminate Hmodes.
    cbn. now rewrite List.app_nil_r. }
  assert (Hreport : reportsError pre = true).
  { destruct (mainUntilSwitch_starts_with_report g rt) as [rest Hrest].
    rewrite Hm in Hrest. cbn [fst] in Hrest.
    rewrite Hrest. unfold reportsError. rewrite existsb_app.
    fold (reportsError (fst (handleParameters g))).
    rewrite report_when_not_one_mode; [reflexivity | lia]. }
  pose proof (mainUntilSwitch_prelude g rt) as HP. rewrite Hm in HP.
  inversion HP as [| | pre0 ex0 ex' src' Hq Hsrc Hex Hpre].
  rewrite Hrun. cbn [fst snd exitStatus]. rewrite Hpre.
  repeat split; [assumption | now exists pre0 |].
  rewrite <- Hpre, visitorsRun_app. cbn.
  rewrite no_visitor; [reflexivity | weaken Hq].
Qed.
End Runs.



Lemma no_mode_selected_runs_no_emitter_witness :
  Sample.go defaults (Sample.world ["sample.xml"] (Some Sample.doc) None)
  = ([LogPrint "  ERROR: At least one of -W -J -X -V -c must be set";
      FilepathAbs "sample.xml"; NewSource FileSource "/w/sample.xml";
      Extract None], Returned) /\
  visitorsRun (fst (Sample.go defaults
                      (Sample.world ["sample.xml"] (Some Sample.doc) None)))
  = 0%nat.
Proof.
  edestruct (no_mode_selected_runs_no_emitter
               Sample.runes Sample.typeName Sample.typeName (fun p => p) name
               defaults (Sample.world ["sample.xml"] (Some Sample.doc) None))
    as (_ & _ & Hrun & Hnone & _); [reflexivity | vm_compute; reflexivity |].
  split; [exact Hrun | exact Hnone].
Defined.

Lemma extraction_failure_stops_before_emission_witness :
  snd (Sample.go (Sample.only AddrCodeGenConvert)
         (Sample.world ["sample.xml"] (Some Sample.doc) (Some "unexpected EOF")))
  = OsExit 1 /\
  forallb (fun e => negb (isOutput e))
    (fst (Sample.go (Sample.only AddrCodeGenConvert)
            (Sample.world ["sample.xml"] (Some Sample.doc) (Some "unexpected EOF"))))
  = true.
Proof.
  destruct (extraction_failure_stops_before_emission
              Sample.runes Sample.typeName Sample.typeName (fun p => p) name
              (Sample.only AddrCodeGenConvert)
              (Sample.world ["sample.xml"] (Some Sample.doc) (Some "unexpected EOF"))
              "unexpected EOF") as (Hstop & _ & Hquiet).
  - vm_compute. right. right. left. reflexivity.
  - split; assumption.
Defined.

Lemma one_source_chosen_by_flags_witness :
  sourcesOpened
    (fst (Sample.go (Sample.only AddrStructsToStdout)
            (Sample.world ["sample.xml"] (Some Sample.doc) None))) = 1%nat.
Proof.
  destruct (one_source_chosen_by_flags
              Sample.runes Sample.typeName Sample.typeName (fun p => p) name
              (Sample.only AddrStructsToStdout)
              (Sample.world ["sample.xml"] (Some Sample.doc) None) "sample.xml")
    as (_ & _ & _ & _ & Hone).
  apply (Hone None). vm_compute. right. right. left. reflexivity.
Defined.

(** ** One level down *)

Section OneLevelDown.
Variable unicodeUpper : string -> string.
Variable makeType : Node -> string -> string -> string.

#[local] Abbreviation entry := (entryFor unicodeUpper makeType).

Lemma xmlTypeOf_some g (n : Node) :
  xmlTypeOf unicodeUpper makeType g (Some n) =
  if named n then Ok (entry g n) else Panic sliceBounds.
Proof.
  unfold xmlTypeOf, callMakeType, field, named, entryFor. cbn [res_bind].
  destruct (name n) as [|c rest] eqn:Hname; [reflexivity|].
  now rewrite capitalizeFirstLetter_cons.
Qed.

Lemma oneLevelInner_eq g (rng : list (string * option Node)) (acc : list XMLType) :
  oneLevelInner unicodeUpper makeType g rng acc =
  if forallb named (nonNil rng)
  then Ok (acc ++ map (entry g) (nonNil rng))%list
  else Panic sliceBounds.
Proof.
  revert acc. induction rng as [|[k [n|]] rng IH]; intros acc.
  - cbn. now rewrite List.app_nil_r.
  - cbn [oneLevelInner]. rewrite xmlTypeOf_some.
    change (nonNil ((k, Some n) :: rng)) with (n :: nonNil rng).
    cbn [forallb map]. destruct (named n); cbn [res_bind andb]; [|reflexivity].
    rewrite IH. destruct (forallb named (nonNil rng)); [|reflexivity].
    now rewrite <- List.app_assoc.
  - cbn [oneLevelInner]. rewrite IH. reflexivity.
Qed.

Lemma oneLevelOuter_eq g inner (rng : list (string * option Node))
    (acc : list XMLType) :
  oneLevelOuter unicodeUpper makeType g inner rng acc =
  if forallb named (grandchildrenIn rng inner)
  then Ok (acc ++ map (entry g) (grandchildrenIn rng inner))%list
  else Panic sliceBounds.
Proof.
  unfold grandchildrenIn.
  revert acc. induction rng as [|[k [np|]] rng IH]; intros acc.
  - cbn. now rewrite List.app_nil_r.
  - cbn [oneLevelOuter]. rewrite oneLevelInner_eq, bind_cons. cbn [fst snd].
    rewrite forallb_app, map_app.
    destruct (forallb named (nonNil (inner k))); cbn [res_bind andb]; [|reflexivity].
    rewrite IH. destruct (forallb named _); [|reflexivity].
    now rewrite <- List.app_assoc.
  - cbn [oneLevelOuter]. rewrite IH, bind_cons. reflexivity.
Qed.

(** [makeOneLevelDown] builds one entry for every non-nil grandchild that
    the ranges yield, in that order, and panics when one of them has an
    empty name. *)
Lemma makeOneLevelDown_eq g outer inner (r : Node) :
  makeOneLevelDown unicodeUpper makeType g outer inner (Some r) =
  if forallb named (grandchildrenIn outer inner)
  then Ok (map (entry g) (grandchildrenIn outer inner))
  else Panic sliceBounds.
Proof. unfold makeOneLevelDown. cbn [field res_bind]. apply oneLevelOuter_eq. Qed.

Lemma bind_pointwise_Permutation {A B : Type} (f h : A -> list B) (l : list A) :
  (forall x, In x l -> f x ≡ₚ h x) -> l ≫= f ≡ₚ l ≫= h.
Proof.
  induction l as [|a l IH]; intros H; [reflexivity|].
  rewrite !bind_cons. apply Permutation_app.
  - apply H. now left.
  - apply IH. intros x Hx. apply H. now right.
Qed.

(** Whatever orders the runtime picks, the grandchildren that the two
    loops meet are the grandchildren of the node. *)
Lemma grandchildrenIn_Permutation (r : Node) outer inner :
  RangesOf r outer inner ->
  grandchildrenIn outer inner ≡ₚ grandchildren r.
Proof.
  intros [Houter Hinner]. unfold grandchildrenIn, grandchildren.
  unfold RangeOf in Houter. rewrite <- Houter.
  apply bind_pointwise_Permutation. intros [k [np|]] Hin; cbn [fst snd]; [|reflexivity].
  unfold nonNil. apply omap_Permutation. apply Hinner.
  apply elem_of_map_to_list. rewrite <- Houter. now apply list_elem_of_In.
Qed.

Lemma forallb_Permutation {A : Type} (p : A -> bool) (l1 l2 : list A) :
  l1 ≡ₚ l2 -> forallb p l1 = forallb p l2.
Proof.
  induction 1 as [| x l1 l2 _ IH | x y l | l1 l2 l3 _ IH1 _ IH2]; cbn.
  - reflexivity.
  - now rewrite IH.
  - destruct (p x), (p y); reflexivity.
  - now rewrite IH1.
Qed.
End OneLevelDown.

Lemma named_iff (n : Node) : named n = true <-> name n <> "".
Proof.
  unfold named. destruct (String.eqb_spec (name n) ""); cbn; split;
    intros; congruence.
Qed.





(** ** Map iteration order *)

Lemma attributes_from (rng : list (string * bool)) (acc : string) :
  fold_left (fun ret kv => (ret +:+ fst kv) +:+ ", ") rng acc
  = acc +:+ flatten (pieces rng).
Proof.
  revert acc. induction rng as [|kv rng IH]; intros acc.
  - cbn. induction acc as [|c acc IHacc]; [reflexivity|].
    rewrite append_cons. now rewrite <- IHacc.
  - cbn [fold_left pieces map flatten fold_right]. rewrite IH.
    now rewrite !append_assoc.
Qed.

Lemma length_append (a b : string) :
  String.length (a +:+ b) = (String.length a + String.length b)%nat.
Proof.
  induction a as [|c a IH]; [reflexivity|].
  rewrite append_cons. cbn [String.length]. now rewrite IH.
Qed.

Lemma length_flatten_Permutation (l1 l2 : list string) :
  l1 ≡ₚ l2 -> String.length (flatten l1) = String.length (flatten l2).
Proof.
  unfold flatten.
  induction 1 as [| x l1 l2 _ IH | x y l | l1 l2 l3 _ IH1 _ IH2];
    cbn [fold_right].
  - reflexivity.
  - now rewrite !length_append, IH.
  - rewrite !length_append. lia.
  - now rewrite IH1.
Qed.

Lemma RangeOf_at_most_one {V : Type} (m : gmap string V) (rng1 rng2 : list (string * V)) :
  RangeOf m rng1 -> RangeOf m rng2 -> (size m <= 1)%nat -> rng1 = rng2.
Proof.
  unfold RangeOf. intros H1 H2 Hsize.
  rewrite <- length_map_to_list in Hsize.
  destruct (map_to_list m) as [|x [|y l]]; cbn in Hsize; [| |lia].
  - apply Permutation_nil_r in H1, H2. congruence.
  - symmetry in H1, H2. apply Permutation_length_1_inv in H1, H2. congruence.
Qed.

(** C6, as the code has it.  [attributes] renders ": " followed by one
    piece, the key and ", ", for every entry in the order in which the
    range yields them.  Two renderings of the same map under two
    iteration orders consist of the same pieces in possibly different
    order, have the same length, and are equal when the map has at most
    one key.  Likewise two results of [makeOneLevelDown] on the same node
    under two choices of iteration orders hold the same entries in
    possibly different order, or are the same panic. *)
Theorem emission_is_determined_up_to_iteration_order :
  (forall rng, attributes rng = ": " +:+ flatten (pieces rng)) /\
  (forall (m : gmap string bool) rng1 rng2,
     RangeOf m rng1 -> RangeOf m rng2 ->
     pieces rng1 ≡ₚ pieces rng2 /\
     String.length (attributes rng1) = String.length (attributes rng2) /\
     ((size m <= 1)%nat -> attributes rng1 = attributes rng2)) /\
  (forall up mk g (r : Node) outer1 inner1 outer2 inner2,
     RangesOf r outer1 inner1 -> RangesOf r outer2 inner2 ->
     sameEntries (makeOneLevelDown up mk g outer1 inner1 (Some r))
                 (makeOneLevelDown up mk g outer2 inner2 (Some r))).
Proof.
  split; [|split].
  - intros rng. apply attributes_from.
  - intros m rng1 rng2 H1 H2.
    assert (Hperm : pieces rng1 ≡ₚ pieces rng2).
    { unfold pieces. apply Permutation_map. unfold RangeOf in *.
      now rewrite H1, H2. }
    split; [assumption|]. split.
    + unfold attributes. rewrite !attributes_from, !length_append.
      now rewrite (length_flatten_Permutation _ _ Hperm).
    + intros Hsize. now rewrite (RangeOf_at_most_one m rng1 rng2).
  - intros up mk g r outer1 inner1 outer2 inner2 H1 H2.
    rewrite !makeOneLevelDown_eq.
    assert (Hperm : grandchildrenIn outer1 inner1 ≡ₚ grandchildrenIn outer2 inner2).
    { rewrite (grandchildrenIn_Permutation r _ _ H1).
      now rewrite (grandchildrenIn_Permutation r _ _ H2). }
    rewrite (forallb_Permutation _ _ _ Hperm).
    destruct (forallb named (grandchildrenIn outer2 inner2)); cbn; [|reflexivity].
    now apply Permutation_map.
Qed.

Lemma emission_is_determined_up_to_iteration_order_witness :
  String.length (attributes [("id", true); ("lang", true)])
  = String.length (attributes [("lang", true); ("id", true)]).
Proof.
  destruct emission_is_determined_up_to_iteration_order as (_ & Hatts & _).
  destruct (Hatts Sample.atts [("id", true); ("lang", true)]
                  [("lang", true); ("id", true)]) as (_ & Hlen & _).
  - unfold RangeOf. vm_compute. first [reflexivity | apply perm_swap].
  - unfold RangeOf. vm_compute. first [reflexivity | apply perm_swap].
  - exact Hlen.
Defined.

(** C6 does not hold as stated: the attribute set with the two names
    [id] and [lang] is rendered as ": id, lang, " when the range yields
    [id] first and as ": lang, id, " when it yields [lang] first, and
    both orders are enumerations of the same map. *)
Lemma attributes_depend_on_iteration_order :
  RangeOf Sample.atts [("id", true); ("lang", true)] /\
  RangeOf Sample.atts [("lang", true); ("id", true)] /\
  attributes [("id", true); ("lang", true)] = ": id, lang, " /\
  attributes [("lang", true); ("id", true)] = ": lang, id, " /\
  attributes [("id", true); ("lang", true)]
  <> attributes [("lang", true); ("id", true)].
Proof.
  repeat split; try (unfold RangeOf; vm_compute;
                     first [reflexivity | apply perm_swap]).
  vm_compute. discriminate.
Qed.

(** ** The Java case on the sample document *)

Lemma java_directory_cleared_before_writing_witness :
  exists post,
    fst (Sample.go (Sample.only AddrWriteJava)
           (Sample.world ["sample.xml"] (Some Sample.doc) None))
    = ([FilepathAbs "sample.xml"; NewSource FileSource "/w/sample.xml";
        Extract None]
       ++ RemoveAll "java"
       :: MkdirAll "java/src/main/java/ca/gnewton/chidley/jaxb/xml" 493
       :: VisitorInit PrintJavaJaxbVisitor :: post)%list /\
    forallb afterJavaVisitor post = true.
Proof.
  destruct (java_directory_cleared_before_writing
              Sample.runes Sample.typeName Sample.typeName (fun p => p) name
              (Sample.only AddrWriteJava)
              (Sample.world ["sample.xml"] (Some Sample.doc) None))
    as (_ & _ & Hjava).
  edestruct Hjava as (post & Hpost & _ & Hafter);
    [vm_compute; reflexivity | reflexivity | reflexivity | reflexivity |].
  exists post. split; [exact Hpost | exact Hafter].
Defined.

Lemma java_base_element_is_last_child_witness :
  Sample.go (Sample.only AddrWriteJava)
    (Sample.world ["sample.xml"] (Some Sample.emptyDoc) None)
  = ([FilepathAbs "sample.xml"; NewSource FileSource "/w/sample.xml";
      Extract None; RemoveAll "java";
      MkdirAll "java/src/main/java/ca/gnewton/chidley/jaxb/xml" 493;
      VisitorInit PrintJavaJaxbVisitor],
     Panicked nilDeref).
Proof.
  edestruct (java_base_element_is_last_child
               Sample.runes Sample.typeName Sample.typeName (fun p => p) name
               (Sample.only AddrWriteJava)
               (Sample.world ["sample.xml"] (Some Sample.emptyDoc) None))
    as (Hempty & _ & _);
    [vm_compute; reflexivity | reflexivity | reflexivity | reflexivity
    | reflexivity | unfold RangeOf; reflexivity |].
  apply Hempty. reflexivity.
Defined.

(** * Further properties *)

(** ** Indentation *)

Lemma indentLoop_tabs (n : nat) (acc : string) :
  indentLoop n acc = acc +:+ tabs n.
Proof.
  revert acc. induction n as [|n IH]; intros acc.
  - cbn [indentLoop tabs]. induction acc as [|c acc IHacc]; [reflexivity|].
    now rewrite append_cons, <- IHacc.
  - cbn [indentLoop tabs]. rewrite IH, append_assoc. reflexivity.
Qed.

Lemma length_tabs (n : nat) : String.length (tabs n) = n.
Proof. induction n as [|n IH]; cbn; [reflexivity | now rewrite IH]. Qed.

Lemma tabs_add (n m : nat) : tabs (n + m) = tabs n +:+ tabs m.
Proof.
  induction n as [|n IH]; [reflexivity|].
  cbn [Nat.add tabs]. now rewrite append_cons, IH.
Qed.

(** X1. [indent d] is [d] tab characters and nothing else; it is empty for
    [d <= 0], and indentations of non-negative depths add up. *)
Theorem indent_is_tabs (d : Z) :
  indent d = tabs (Z.to_nat d) /\
  String.length (indent d) = Z.to_nat d /\
  (d <= 0 -> indent d = "") /\
  (forall d', 0 <= d -> 0 <= d' -> indent (d + d') = indent d +:+ indent d').
Proof.
  assert (Heq : forall z, indent z = tabs (Z.to_nat z)).
  { intros z. unfold indent. now rewrite indentLoop_tabs. }
  repeat split.
  - apply Heq.
  - rewrite Heq. apply length_tabs.
  - intros Hd. rewrite Heq. replace (Z.to_nat d) with 0%nat by lia. reflexivity.
  - intros d' Hd Hd'. rewrite !Heq, Z2Nat.inj_add by assumption. apply tabs_add.
Qed.

Lemma indent_is_tabs_witness :
  indent (-3) = "" /\ indent (1 + 2) = indent 1 +:+ indent 2.
Proof.
  destruct (indent_is_tabs (-3)) as (_ & _ & Hneg & _).
  destruct (indent_is_tabs 1) as (_ & _ & _ & Hadd).
  split; [apply Hneg; lia | apply Hadd; lia].
Defined.

(** ** First letters, there and back *)

Lemma upperByte_ascii (c : ascii) :
  isASCIIbyte c = true -> isASCIIbyte (upperByte c) = true.
Proof.
  intros Hc. destruct (isLower c) eqn:Hl.
  - destruct (upperByte_spec c) as [Hup _]. destruct (Hup Hl) as [_ Hn].
    unfold isASCIIbyte in *. apply Nat.ltb_lt in Hc. apply Nat.ltb_lt. lia.
  - destruct (upperByte_spec c) as [_ Hid]. now rewrite (Hid Hl).
Qed.

Lemma lowerByte_ascii (c : ascii) :
  isASCIIbyte c = true -> isASCIIbyte (lowerByte c) = true.
Proof.
  intros Hc. destruct (isUpper c) eqn:Hu.
  - destruct (lowerByte_spec c) as [Hlow _]. destruct (Hlow Hu) as [_ Hn].
    unfold isUpper in Hu. apply andb_prop in Hu as [_ Hu]. apply Nat.leb_le in Hu.
    unfold isASCIIbyte. apply Nat.ltb_lt. lia.
  - destruct (lowerByte_spec c) as [_ Hid]. now rewrite (Hid Hu).
Qed.

Lemma lower_not_upper (c : ascii) : isLower c = true -> isUpper c = false.
Proof.
  unfold isLower, isUpper. intros H. apply andb_prop in H as [H1 _].
  apply Nat.leb_le in H1. apply andb_false_iff. right. apply Nat.leb_gt. lia.
Qed.

Lemma upper_not_lower (c : ascii) : isUpper c = true -> isLower c = false.
Proof.
  unfold isLower, isUpper. intros H. apply andb_prop in H as [_ H2].
  apply Nat.leb_le in H2. apply andb_false_iff. left. apply Nat.leb_gt. lia.
Qed.

Lemma upperByte_idempotent (c : ascii) : upperByte (upperByte c) = upperByte c.
Proof.
  destruct (isLower c) eqn:Hl.
  - destruct (upperByte_spec c) as [Hup _]. destruct (Hup Hl) as [Hu _].
    destruct (upperByte_spec (upperByte c)) as [_ Hid].
    apply Hid. now apply upper_not_lower.
  - destruct (upperByte_spec c) as [_ Hid]. now rewrite !(Hid Hl).
Qed.

Lemma lowerByte_idempotent (c : ascii) : lowerByte (lowerByte c) = lowerByte c.
Proof.
  destruct (isUpper c) eqn:Hu.
  - destruct (lowerByte_spec c) as [Hlow _]. destruct (Hlow Hu) as [Hl _].
    destruct (lowerByte_spec (lowerByte c)) as [_ Hid].
    apply Hid. now apply lower_not_upper.
  - destruct (lowerByte_spec c) as [_ Hid]. now rewrite !(Hid Hu).
Qed.

Lemma nat_of_ascii_inj (a b : ascii) : nat_of_ascii a = nat_of_ascii b -> a = b.
Proof.
  intros H. rewrite <- (ascii_nat_embedding a), <- (ascii_nat_embedding b).
  now rewrite H.
Qed.

Lemma lower_of_upper (c : ascii) : isUpper c = false -> lowerByte (upperByte c) = c.
Proof.
  intros Hnu. destruct (isLower c) eqn:Hl.
  - destruct (upperByte_spec c) as [Hup _]. destruct (Hup Hl) as [Hu Hn].
    destruct (lowerByte_spec (upperByte c)) as [Hlow _].
    destruct (Hlow Hu) as [_ Hn']. apply nat_of_ascii_inj. lia.
  - destruct (upperByte_spec c) as [_ Hid]. rewrite (Hid Hl).
    destruct (lowerByte_spec c) as [_ Hid']. now apply Hid'.
Qed.

Lemma upper_of_lower (c : ascii) : isLower c = false -> upperByte (lowerByte c) = c.
Proof.
  intros Hnl. destruct (isUpper c) eqn:Hu.
  - destruct (lowerByte_spec c) as [Hlow _]. destruct (Hlow Hu) as [Hl Hn].
    destruct (upperByte_spec (lowerByte c)) as [Hup _].
    destruct (Hup Hl) as [_ Hn']. apply nat_of_ascii_inj. lia.
  - destruct (lowerByte_spec c) as [_ Hid]. rewrite (Hid Hu).
    destruct (upperByte_spec c) as [_ Hid']. now apply Hid'.
Qed.

(** X2. On a string that starts with an ASCII byte, [capitalizeFirstLetter]
    and [lowerFirstLetter] keep the length, doing either twice is the
    same as doing it once, and each undoes the other unless it has to
    change the case of the first letter: lowering the capitalized string
    gives the string back when it did not start with a capital, and
    capitalizing the lowered string gives it back when it did not start
    with a small letter. *)
Theorem first_letter_round_trip
    (up low : string -> string) (c : ascii) (r : string) :
  isASCIIbyte c = true ->
  exists capd lowd,
    capitalizeFirstLetter up (String c r) = Ok capd /\
    lowerFirstLetter low (String c r) = Ok lowd /\
    String.length capd = String.length (String c r) /\
    String.length lowd = String.length (String c r) /\
    capitalizeFirstLetter up capd = Ok capd /\
    lowerFirstLetter low lowd = Ok lowd /\
    lowerFirstLetter low capd = Ok lowd /\
    capitalizeFirstLetter up lowd = Ok capd /\
    (isUpper c = false -> lowerFirstLetter low capd = Ok (String c r)) /\
    (isLower c = false -> capitalizeFirstLetter up lowd = Ok (String c r)).
Proof.
  intros Hc.
  pose proof (upperByte_ascii c Hc) as Hu. pose proof (lowerByte_ascii c Hc) as Hl.
  exists (String (upperByte c) r), (String (lowerByte c) r).
  rewrite !capitalizeFirstLetter_cons, !lowerFirstLetter_cons.
  rewrite !ToUpper_ascii_byte, !ToLower_ascii_byte by assumption.
  rewrite upperByte_idempotent, lowerByte_idempotent.
  repeat split.
  - destruct (isUpper c) eqn:Hcu.
    + destruct (upperByte_spec c) as [_ Hid].
      rewrite (Hid (upper_not_lower c Hcu)). reflexivity.
    + rewrite lower_of_upper by assumption.
      destruct (lowerByte_spec c) as [_ Hid]. rewrite (Hid Hcu). reflexivity.
  - destruct (isLower c) eqn:Hcl.
    + destruct (lowerByte_spec c) as [_ Hid].
      rewrite (Hid (lower_not_upper c Hcl)). reflexivity.
    + rewrite upper_of_lower by assumption.
      destruct (upperByte_spec c) as [_ Hid]. rewrite (Hid Hcl). reflexivity.
  - intros Hnu. rewrite lower_of_upper by assumption. reflexivity.
  - intros Hnl. rewrite upper_of_lower by assumption. reflexivity.
Qed.

Lemma first_letter_round_trip_witness :
  exists capd,
    capitalizeFirstLetter Sample.runes "title" = Ok capd /\
    lowerFirstLetter Sample.runes capd = Ok "title".
Proof.
  destruct (first_letter_round_trip Sample.runes Sample.runes "t"%char "itle")
    as (capd & lowd & Hcap & _ & _ & _ & _ & _ & _ & _ & Hback & _);
    [reflexivity|].
  exists capd. split; [exact Hcap | apply Hback; reflexivity].
Defined.

(** ** Counting flags: bounds, nil pointers, concatenation *)

Lemma targetsTrue_le {Addr : Type} (mem : Addr -> bool) (a : list (option Addr)) :
  (targetsTrue mem a <= List.length a)%nat.
Proof. unfold targetsTrue. apply List.filter_length_le. Qed.

Lemma targetsTrue_app {Addr : Type} (mem : Addr -> bool) (a b : list (option Addr)) :
  targetsTrue mem (a ++ b) = (targetsTrue mem a + targetsTrue mem b)%nat.
Proof. unfold targetsTrue. now rewrite List.filter_app, List.length_app. Qed.

Lemma targetsTrue_all {Addr : Type} (mem : Addr -> bool) (a : list (option Addr)) :
  targetsTrue mem a = List.length a <-> forallb (pointsToTrue mem) a = true.
Proof.
  unfold targetsTrue. induction a as [|p a IH]; cbn; [tauto|].
  pose proof (List.filter_length_le (pointsToTrue mem) a) as Hle.
  destruct (pointsToTrue mem p); cbn.
  - rewrite <- IH. split; intros H; lia.
  - split; intros H; [lia | discriminate].
Qed.

(** X3. [countNumberOfBoolsSet] panics on a list that holds a nil pointer.
    On non-nil pointers the count lies between zero and the length of
    the list, reaches the length exactly when every target is true, and
    the count of a concatenation is the sum of the counts. *)
Theorem count_bounds_and_concatenation
    {Addr : Type} (mem : Addr -> bool) (a b : list (option Addr)) :
  (In None a -> countNumberOfBoolsSet mem a = Panic nilDeref) /\
  (Forall (fun p => p <> None) (a ++ b) ->
   Z.of_nat (List.length (a ++ b)) < 2 ^ 63 ->
   exists na nb,
     countNumberOfBoolsSet mem a = Ok na /\
     countNumberOfBoolsSet mem b = Ok nb /\
     countNumberOfBoolsSet mem (a ++ b) = Ok (na + nb) /\
     0 <= na <= Z.of_nat (List.length a) /\
     (na = Z.of_nat (List.length a) <-> forallb (pointsToTrue mem) a = true)).
Proof.
  split; [apply countFrom_nil_pointer|].
  intros Hnil Hlen. rewrite List.length_app in Hlen.
  apply Forall_app in Hnil as [Ha Hb].
  exists (Z.of_nat (targetsTrue mem a)), (Z.of_nat (targetsTrue mem b)).
  unfold countNumberOfBoolsSet.
  rewrite !countFrom_counts;
    try lia; try assumption; try (apply Forall_app; now split);
    try (rewrite List.length_app; lia).
  pose proof (targetsTrue_le mem a) as Hle.
  repeat split; try lia.
  - rewrite targetsTrue_app. cbn. f_equal. lia.
  - intros H. apply targetsTrue_all. lia.
  - intros H. apply targetsTrue_all in H. lia.
Qed.

Lemma count_bounds_and_concatenation_witness :
  countNumberOfBoolsSet (load (Sample.only AddrWriteJava))
    [Some AddrWriteJava; None] = Panic nilDeref /\
  exists na nb,
    countNumberOfBoolsSet (load (Sample.only AddrWriteJava))
      ([Some AddrCodeGenConvert; Some AddrWriteJava] ++ [Some AddrWriteJava])
    = Ok (na + nb).
Proof.
  split.
  - apply (count_bounds_and_concatenation (load (Sample.only AddrWriteJava))
             [Some AddrWriteJava; None] []).
    right. now left.
  - destruct (count_bounds_and_concatenation (load (Sample.only AddrWriteJava))
                [Some AddrCodeGenConvert; Some AddrWriteJava] [Some AddrWriteJava])
      as [_ H].
    destruct H as (na & nb & _ & _ & Hsum & _).
    + repeat constructor; discriminate.
    + vm_compute. reflexivity.
    + exists na, nb. exact Hsum.
Defined.

(** ** One level down: when it panics *)

Lemma forallb_false_exists {A : Type} (p : A -> bool) (l : list A) :
  forallb p l = false <-> exists x, In x l /\ p x = false.
Proof.
  induction l as [|a l IH]; cbn.
  - split; [discriminate | intros (x & [] & _)].
  - destruct (p a) eqn:Ha; cbn.
    + rewrite IH. split; intros (x & Hin & Hx); exists x.
      * split; [now right | assumption].
      * destruct Hin as [<-|Hin]; [congruence | now split].
    + split; [intros _; exists a; split; [now left | assumption] | reflexivity].
Qed.

(** X4. [makeOneLevelDown] panics on a nil node.  On a node it panics, with
    the slice error of [capitalizeFirstLetter], exactly when some non-nil
    grandchild has an empty name, whatever orders the runtime picks; nil
    children and nil grandchildren are passed over and never make it
    panic. *)
Theorem one_level_down_panics_on_empty_name
    (up : string -> string) (mk : Node -> string -> string -> string)
    (g : Globals) (outer : list (string * option Node))
    (inner : string -> list (string * option Node)) (r : Node) :
  makeOneLevelDown up mk g outer inner None = Panic nilDeref /\
  (RangesOf r outer inner ->
   (makeOneLevelDown up mk g outer inner (Some r) = Panic sliceBounds <->
    exists n, In n (grandchildren r) /\ name n = "") /\
   (forall msg, makeOneLevelDown up mk g outer inner (Some r) = Panic msg ->
                msg = sliceBounds)).
Proof.
  split; [reflexivity|]. intros Hrng.
  pose proof (grandchildrenIn_Permutation r outer inner Hrng) as Hperm.
  rewrite makeOneLevelDown_eq, (forallb_Permutation _ _ _ Hperm).
  destruct (forallb named (grandchildren r)) eqn:Hall; split.
  - split; [discriminate|]. intros (n & Hin & Hn).
    apply (forallb_In _ _ _ Hall) in Hin. apply named_iff in Hin. congruence.
  - discriminate.
  - split; [|reflexivity]. intros _.
    apply forallb_false_exists in Hall as (n & Hin & Hn). exists n.
    split; [assumption|]. unfold named in Hn.
    destruct (String.eqb_spec (name n) ""); [assumption | discriminate].
  - intros msg Heq. congruence.
Qed.

Lemma RangesOf_inOrder (r : Node) :
  RangesOf r (map_to_list (children r)) (Cases.inOrder r).
Proof.
  split; [unfold RangeOf; reflexivity|].
  intros k np Hk. unfold Cases.inOrder, RangeOf. now rewrite Hk.
Qed.

Lemma one_level_down_panics_on_empty_name_witness :
  makeOneLevelDown Sample.runes Sample.typeName defaults
    (map_to_list (children Cases.nameless)) (Cases.inOrder Cases.nameless)
    (Some Cases.nameless) = Panic sliceBounds.
Proof.
  destruct (one_level_down_panics_on_empty_name Sample.runes Sample.typeName
              defaults (map_to_list (children Cases.nameless))
              (Cases.inOrder Cases.nameless) Cases.nameless) as [_ H].
  destruct (H (RangesOf_inOrder Cases.nameless)) as [[_ Hpanic] _].
  apply Hpanic. exists (Sample.leaf "" ""). split; [|reflexivity].
  vm_compute. now left.
Defined.

(** ** The package information file *)

(** X5. [printPackageInfo] does nothing for an element without a namespace,
    panics on a nil element, and for an element in a namespace creates
    [javaDir/xml/package-info.java] and renders the template with that
    namespace and the package [javaPackage.xml]; when the file cannot be
    created it logs the path and panics with the error of [os.Create],
    and the template is not rendered.  The attributes and the namespace
    table that it is given change nothing of this. *)
Theorem package_info_only_for_namespaced_element
    (nk : Node -> string) (rt : Runtime) (node : option Node)
    (javaDir javaPackage : string)
    (attrs attrs' : gmap string (list FQN)) (nsTags nsTags' : gmap string string) :
  printPackageInfo nk rt node javaDir javaPackage attrs nsTags
  = printPackageInfo nk rt node javaDir javaPackage attrs' nsTags' /\
  (node = None ->
   printPackageInfo nk rt node javaDir javaPackage attrs nsTags
   = ([], inr (Panicked nilDeref))) /\
  (forall n, node = Some n -> space n = "" ->
   printPackageInfo nk rt node javaDir javaPackage attrs nsTags = ([], inl tt)) /\
  (forall n, node = Some n -> space n <> "" ->
   let path := javaDir +:+ "/xml/package-info.java" in
   (forall err, osCreate rt path = Some err ->
      printPackageInfo nk rt node javaDir javaPackage attrs nsTags
      = ([Create path; LogPrint ("Problem creating file: " +:+ path)],
         inr (Panicked err))) /\
   (osCreate rt path = None ->
      snd (printPackageInfo nk rt node javaDir javaPackage attrs nsTags) = inl tt /\
      unlogged (fst (printPackageInfo nk rt node javaDir javaPackage attrs nsTags))
      = [Create path;
         Execute "package-info"
           (DataPackageInfo {| BaseNameSpace := space n;
                               PackageInfoName := javaPackage +:+ ".xml" |})])).
Proof.
  split; [reflexivity|]. split; [now intros ->|]. split.
  - intros n -> Hsp. unfold printPackageInfo, field. rewrite bind_call_ok, Hsp.
    reflexivity.
  - intros n -> Hsp path. subst path.
    unfold printPackageInfo, field. rewrite !bind_call_ok.
    apply String.eqb_neq in Hsp. cbn beta. rewrite Hsp. cbn [negb].
    rewrite ?bind_call_ok. cbn zeta. unfold createOrPanic, executeTemplate.
    split.
    + intros err ->. reflexivity.
    + intros ->. now destruct (templateExecute rt "package-info").
Qed.

Lemma package_info_only_for_namespaced_element_witness :
  printPackageInfo name (Sample.world [] None None) (Some Sample.elemA)
    "java/src" "ca.gnewton.chidley.jaxb" ∅ ∅ = ([], inl tt) /\
  snd (printPackageInfo name (Cases.readOnly (Sample.world [] None None))
         (Some Cases.spaced) "java/src" "ca.gnewton.chidley.jaxb" ∅ ∅)
  = inr (Panicked "permission denied").
Proof.
  destruct (package_info_only_for_namespaced_element name
              (Sample.world [] None None) (Some Sample.elemA)
              "java/src" "ca.gnewton.chidley.jaxb" ∅ ∅ ∅ ∅)
    as (_ & _ & Hplain & _).
  destruct (package_info_only_for_namespaced_element name
              (Cases.readOnly (Sample.world [] None None)) (Some Cases.spaced)
              "java/src" "ca.gnewton.chidley.jaxb" ∅ ∅ ∅ ∅)
    as (_ & _ & _ & Hspaced).
  split.
  - apply (Hplain Sample.elemA); reflexivity.
  - destruct (Hspaced Cases.spaced eq_refl) as [Hfail _]; [discriminate|].
    now rewrite (Hfail "permission denied" eq_refl).
Defined.

(** ** Java package and directory *)

Lemma mapBytes_append (f : ascii -> ascii) (a b : string) :
  mapBytes f (a +:+ b) = mapBytes f a +:+ mapBytes f b.
Proof.
  induction a as [|c a IH]; [reflexivity|].
  rewrite append_cons. cbn [mapBytes]. now rewrite append_cons, IH.
Qed.

Lemma append_inv_head (a x y : string) : a +:+ x = a +:+ y -> x = y.
Proof.
  induction a as [|c a IH]; [trivial|].
  rewrite !append_cons. intros H. inversion H. now apply IH.
Qed.

Lemma replaceByte_fixed (old new : ascii) (s : string) :
  old <> new ->
  (replaceByte old new s = s <-> containsByte old s = false).
Proof.
  intros Hne. unfold replaceByte. induction s as [|c s IH]; cbn; [tauto|].
  destruct (Ascii.eqb_spec c old) as [->|Hc]; cbn.
  - split; [|discriminate]. intros H. inversion H. congruence.
  - rewrite <- IH. split; intros H; [now injection H | now f_equal].
Qed.

(** X6. The directory of the generated classes is the package name with
    every dot turned into a slash, as Java wants it, exactly when the
    application name holds no dot; the base package is always turned
    into its path. *)
Theorem java_directory_matches_package (g : Globals) :
  replaceByte "."%char "/"%char javaBasePackage = javaBasePackagePath /\
  (javaDirOf g
   = baseJavaDir g +:+ "/" +:+ mavenJavaBase +:+ "/"
     +:+ replaceByte "."%char "/"%char (javaPackageOf g)
   <-> containsByte "."%char (javaAppName g) = false).
Proof.
  split; [reflexivity|].
  unfold javaDirOf, javaPackageOf, replaceByte.
  rewrite !mapBytes_append.
  change (mapBytes (fun c => if Ascii.eqb c "."%char then "/"%char else c)
            javaBasePackage) with javaBasePackagePath.
  change (mapBytes (fun c => if Ascii.eqb c "."%char then "/"%char else c) ".")
    with "/".
  fold (replaceByte "."%char "/"%char (javaAppName g)).
  rewrite <- (replaceByte_fixed "."%char "/"%char (javaAppName g)) by discriminate.
  split.
  - intros H. do 6 apply append_inv_head in H. now symmetry.
  - intros H. now rewrite H.
Qed.

Lemma java_directory_matches_package_witness :
  javaDirOf defaults
  = "java/src/main/java/" +:+ replaceByte "."%char "/"%char (javaPackageOf defaults).
Proof.
  destruct (java_directory_matches_package defaults) as [_ [_ H]].
  exact (H eq_refl).
Defined.

(** ** Logging the children of the children *)

Section PrintChildrenProperties.
Variable showChildren : gmap string (option Node) -> string.

Lemma printChildrenLoop_nonNil (front : list (string * Node))
    (rest : list (string * option Node)) :
  printChildrenLoop showChildren (map (fun kv => (fst kv, Some (snd kv))) front ++ rest)
  = ((front ≫= childLines showChildren) ++ fst (printChildrenLoop showChildren rest),
     snd (printChildrenLoop showChildren rest))%list.
Proof.
  induction front as [|[k n] front IH].
  - cbn. now destruct (printChildrenLoop showChildren rest).
  - cbn [map app fst snd printChildrenLoop]. unfold logPrint, field.
    rewrite bind_emit, bind_call_ok, bind_emit. cbn [fst snd]. rewrite IH.
    reflexivity.
Qed.

(** X7. [printChildrenChildren] logs two lines for every child, the key and
    the children of the child, as long as the children are not nil; at
    the first nil child it has logged the key of that child and panics
    on the nil pointer, where [makeOneLevelDown] passes a nil child
    over.  It panics at once on a nil node. *)
Theorem print_children_stops_at_nil_child
    (front : list (string * Node)) (rest : list (string * option Node))
    (k : string) (node : Node) :
  printChildrenChildren showChildren
    (map (fun kv => (fst kv, Some (snd kv))) front) (Some node)
  = (front ≫= childLines showChildren, inl tt) /\
  printChildrenChildren showChildren
    (map (fun kv => (fst kv, Some (snd kv))) front ++ (k, None) :: rest) (Some node)
  = ((front ≫= childLines showChildren) ++ [LogPrint k], inr (Panicked nilDeref))%list /\
  (forall rng, printChildrenChildren showChildren rng None
               = ([], inr (Panicked nilDeref))).
Proof.
  unfold printChildrenChildren, field. rewrite !bind_call_ok.
  split; [|split; [|reflexivity]].
  - rewrite <- (List.app_nil_r (map _ front)), printChildrenLoop_nonNil.
    cbn. now rewrite List.app_nil_r.
  - rewrite printChildrenLoop_nonNil. reflexivity.
Qed.
End PrintChildrenProperties.

(** ** Opening the source, case by case *)

Lemma openNamed_eq g rt (nm : string) :
  openNamed g rt nm =
  (((if DEBUG g
     then [LogPrint (match chosenKind g with
                     | UrlSource => "Making UrlSource"
                     | StdinSource => "Making StdinSource"
                     | FileSource => "Making FileSource"
                     end);
           LogPrint ("Making Source:[" +:+ nm +:+ "]")]
     else []) ++ [NewSource (chosenKind g) nm])
   ++ match newSource rt (chosenKind g) nm with
      | Some e => [LogPrint ("FATAL ERROR: " +:+ e)]
      | None => []
      end,
   match newSource rt (chosenKind g) nm with
   | Some e => inr (OsExit 1)
   | None => inl (mkSource (chosenKind g) nm, nm)
   end)%list.
Proof.
  unfold openNamed. rewrite makeSourceReader_eq. cbn zeta.
  fold (chosenKind g). rewrite bind_ok. cbn [fst snd].
  now destruct (newSource rt (chosenKind g) nm).
Qed.

Lemma openSource_stdin g rt :
  readFromStandardIn g = true -> openSource g rt = openNamed g rt "".
Proof.
  intros Hin. unfold openSource, openNamed. rewrite Hin. cbn [negb andb].
  now rewrite andb_false_r, !bind_ret.
Qed.

Lemma openSource_no_argument g rt :
  readFromStandardIn g = false -> args rt = [] ->
  openSource g rt = ([], inr (Panicked indexRange)).
Proof. intros Hin Hargs. unfold openSource. now rewrite Hin, Hargs. Qed.

Lemma openSource_url g rt (a : string) (more : list string) :
  readFromStandardIn g = false -> url g = true -> args rt = a :: more ->
  openSource g rt = openNamed g rt a.
Proof.
  intros Hin Hurl Hargs. unfold openSource, openNamed.
  rewrite Hin, Hurl, Hargs. cbn [negb andb index nth_error].
  now rewrite bind_call_ok, bind_ret.
Qed.

Lemma openSource_file g rt (a p : string) (more : list string) :
  readFromStandardIn g = false -> url g = false -> args rt = a :: more ->
  filepathAbs rt a = inl p ->
  openSource g rt = (FilepathAbs a :: fst (openNamed g rt p), snd (openNamed g rt p)).
Proof.
  intros Hin Hurl Hargs Habs. unfold openSource, openNamed.
  rewrite Hin, Hurl, Hargs. cbn [negb andb index nth_error].
  rewrite bind_call_ok, Habs.
  change (bind (emit (FilepathAbs a)) (fun _ => ret p))
    with ([FilepathAbs a], @inl string Stop p).
  now rewrite bind_ok.
Qed.

Lemma openSource_no_absolute_path g rt (a e : string) (more : list string) :
  readFromStandardIn g = false -> url g = false -> args rt = a :: more ->
  filepathAbs rt a = inr e ->
  openSource g rt
  = ([FilepathAbs a; LogPrint ("FATAL ERROR: " +:+ e)], inr (OsExit 1)).
Proof.
  intros Hin Hurl Hargs Habs. unfold openSource.
  rewrite Hin, Hurl, Hargs. cbn [negb andb index nth_error].
  now rewrite bind_call_ok, Habs.
Qed.

Lemma openSource_opening g rt : Opening g rt (openSource g rt).
Proof.
  destruct (readFromStandardIn g) eqn:Hin.
  - rewrite openSource_stdin by assumption. now apply FromStandardIn.
  - destruct (args rt) as [|a more] eqn:Hargs.
    + rewrite openSource_no_argument by assumption. now apply NoArgument.
    + destruct (url g) eqn:Hurl.
      * rewrite (openSource_url g rt a more) by assumption.
        now apply (FromUrl g rt a more).
      * destruct (filepathAbs rt a) as [p|e] eqn:Habs.
        -- rewrite (openSource_file g rt a p more) by assumption.
           now apply (FromFile g rt a p more).
        -- rewrite (openSource_no_absolute_path g rt a e more) by assumption.
           now apply (NoAbsolutePath g rt a e more).
Qed.

(** ** The course of a run *)

Lemma bind_assoc {A B C : Type} (m : M A) (k : A -> M B) (h : B -> M C) :
  bind (bind m k) h = bind m (fun a => bind (k a) h).
Proof.
  destruct m as [tr [a|s]]; [|reflexivity].
  cbn [bind]. destruct (k a) as [tr' [b|s]]; cbn [bind].
  - destruct (h b) as [tr'' r]. now rewrite List.app_assoc.
  - reflexivity.
Qed.

Lemma finish_snd (tr : list Event) (m : M unit) :
  finish (tr, snd m) = (tr, snd (finish m)).
Proof. destruct m as [tr' [[]|s]]; reflexivity. Qed.

Lemma unlogged_app (l1 l2 : list Event) :
  unlogged (l1 ++ l2) = (unlogged l1 ++ unlogged l2)%list.
Proof. unfold unlogged. apply List.filter_app. Qed.

Lemma unlogged_logs (l : list Event) : forallb isLog l = true -> unlogged l = [].
Proof.
  induction l as [|e l IH]; [reflexivity|]. cbn. intros H.
  apply andb_prop in H as [He Hl]. unfold unlogged in *. cbn.
  rewrite He. cbn. now apply IH.
Qed.

Lemma report_is_log g : forallb isLog (fst (handleParameters g)) = true.
Proof.
  rewrite handleParameters_eq.
  now destruct (1 <? modesSet g)%nat, (modesSet g =? 0)%nat.
Qed.

Lemma not_in_when_none (p : Event -> bool) (l : list Event) (e : Event) :
  forallb (fun x => negb (p x)) l = true -> p e = true -> ~ In e l.
Proof.
  intros Hall He Hin. apply (forallb_In _ _ _ Hall) in Hin.
  rewrite He in Hin. discriminate.
Qed.

Lemma Named_front g rt front nm :
  Named g rt front nm ->
  forallb (fun e => negb (isNewSource e) && negb (isExtract e)
                    && negb (isOutput e) && negb (isLog e)) front = true.
Proof. now destruct 1. Qed.

Section Courses.
Variable unicodeUpper : string -> string.
Variable makeType makeJavaType : Node -> string -> string -> string.
Variable getFullPath : string -> string.
Variable nk : Node -> string.

#[local] Abbreviation emitOutput' :=
  (emitOutput unicodeUpper makeType makeJavaType getFullPath nk).
#[local] Abbreviation run' :=
  (run unicodeUpper makeType makeJavaType getFullPath nk).
#[local] Abbreviation process' :=
  (process unicodeUpper makeType makeJavaType getFullPath nk).

(** What [main] does once the name of the source is settled. *)
Lemma course_from_name g rt (front : list Event) (nm : string) :
  Named g rt front nm ->
  Course g rt (emitOutput' g rt) (fst (handleParameters g))
    (finish
       ((fst (handleParameters g) ++ front
         ++ fst (bind (openNamed g rt nm)
                   (fun opened =>
                      bind (extractFrom g rt (fst opened))
                        (fun ex => emitOutput' g rt ex (snd opened)))))%list,
        snd (bind (openNamed g rt nm)
               (fun opened =>
                  bind (extractFrom g rt (fst opened))
                    (fun ex => emitOutput' g rt ex (snd opened)))))).
Proof.
  intros Hnamed. rewrite openNamed_eq.
  set (logs := if DEBUG g then _ else _).
  assert (Hlogs : forallb isLog logs = true) by (subst logs; now destruct (DEBUG g)).
  destruct (newSource rt (chosenKind g) nm) as [e|] eqn:Hnew.
  - rewrite bind_stop. cbn [fst snd finish]. rewrite <- List.app_assoc.
    now apply CourseSourceFailed.
  - rewrite bind_ok. cbn [fst snd]. rewrite extractFrom_eq.
    set (logs' := if DEBUG g then _ else _).
    assert (Hlogs' : forallb isLog logs' = true)
      by (subst logs'; now destruct (DEBUG g)).
    destruct (extract rt (newExtractor g (mkSource (chosenKind g) nm)))
      as [[e|] ex] eqn:Hex; cbn [fst snd].
    + rewrite bind_stop. cbn [fst snd finish].
      rewrite List.app_nil_r, <- !List.app_assoc. cbn [app].
      now apply (CourseExtractFailed g rt _ _ front logs logs' nm e ex).
    + rewrite bind_ok. cbn [fst snd].
      rewrite List.app_nil_r, <- !List.app_assoc. cbn [app].
      rewrite finish_snd.
      now apply (CourseSwitch g rt _ _ front logs logs' nm ex).
Qed.

Lemma run_from_name g rt (front : list Event) (nm : string) :
  (List.length (args rt) = 1%nat \/ readFromStandardIn g = true) ->
  openSource g rt
  = ((front ++ fst (openNamed g rt nm))%list, snd (openNamed g rt nm)) ->
  run' g rt
  = finish
      ((fst (handleParameters g) ++ front
        ++ fst (bind (openNamed g rt nm)
                  (fun opened =>
                     bind (extractFrom g rt (fst opened))
                       (fun ex => emitOutput' g rt ex (snd opened)))))%list,
       snd (bind (openNamed g rt nm)
              (fun opened =>
                 bind (extractFrom g rt (fst opened))
                   (fun ex => emitOutput' g rt ex (snd opened))))).
Proof.
  intros Hok Hopen. unfold run, main.
  rewrite (mainUntilSwitch_continue g rt Hok). unfold openAndExtract.
  rewrite Hopen.
  destruct (openNamed g rt nm) as [tr [opened|s]]; cbn [fst snd].
  - rewrite !bind_ok. cbn [fst snd].
    destruct (extractFrom g rt (fst opened)) as [tr' [ex|s]]; cbn [fst snd].
    + rewrite !bind_ok. cbn [fst snd ret]. rewrite bind_ok. cbn [fst snd].
      now rewrite List.app_nil_r, <- !List.app_assoc.
    + rewrite !bind_stop. cbn [fst snd]. rewrite bind_stop.
      now rewrite <- !List.app_assoc.
  - rewrite !bind_stop. cbn [fst snd]. now rewrite bind_stop.
Qed.

(** Every run takes one of the five courses. *)
Lemma run_course g rt :
  Course g rt (emitOutput' g rt) (fst (handleParameters g)) (run' g rt).
Proof.
  destruct (readFromStandardIn g) eqn:Hin.
  - rewrite (run_from_name g rt [] "").
    + apply course_from_name. now apply NamedStandardIn.
    + now right.
    + rewrite openSource_stdin by assumption. now destruct (openNamed g rt "").
  - destruct (args rt) as [|a [|b more]] eqn:Hargs.
    + rewrite (run_stopped _ _ _ _ _ _ _ _ _
                 (mainUntilSwitch_usage g rt ltac:(now rewrite Hargs) Hin)).
      apply CourseUsage; [now rewrite Hargs | assumption].
    + destruct (url g) eqn:Hurl.
      * rewrite (run_from_name g rt [] a).
        -- apply course_from_name. now apply NamedUrl.
        -- left. now rewrite Hargs.
        -- rewrite (openSource_url g rt a []) by assumption.
           now destruct (openNamed g rt a).
      * destruct (filepathAbs rt a) as [p|e] eqn:Habs.
        -- rewrite (run_from_name g rt [FilepathAbs a] p).
           ++ apply course_from_name. now apply (NamedFile g rt a p).
           ++ left. now rewrite Hargs.
           ++ now rewrite (openSource_file g rt a p []).
        -- unfold run, main.
           rewrite (mainUntilSwitch_continue g rt) by (left; now rewrite Hargs).
           unfold openAndExtract.
           rewrite (openSource_no_absolute_path g rt a e []) by assumption.
           rewrite !bind_stop. cbn [fst snd]. rewrite bind_stop. cbn [finish].
           now apply CourseNoAbsolutePath.
    + rewrite (run_stopped _ _ _ _ _ _ _ _ _
                 (mainUntilSwitch_usage g rt ltac:(now rewrite Hargs) Hin)).
      apply CourseUsage; [now rewrite Hargs | assumption].
Qed.

(** X8. The source that a run opens.  With standard input selected the
    positional arguments are not looked at and the source is opened
    under the empty name, as a URL source when the URL flag is set too.
    Otherwise the one argument names the source: as it stands for a URL,
    made absolute by [filepath.Abs] for a file; when the path cannot be
    made absolute the run stops with status 1 before any source is
    opened. *)
Theorem source_name_by_flags g rt :
  (readFromStandardIn g = true ->
   exists rest,
     unlogged (fst (run' g rt))
     = NewSource (if url g then UrlSource else StdinSource) "" :: rest) /\
  (forall a, readFromStandardIn g = false -> args rt = [a] -> url g = true ->
   exists rest, unlogged (fst (run' g rt)) = NewSource UrlSource a :: rest) /\
  (forall a p, readFromStandardIn g = false -> args rt = [a] -> url g = false ->
   filepathAbs rt a = inl p ->
   exists rest,
     unlogged (fst (run' g rt)) = FilepathAbs a :: NewSource FileSource p :: rest) /\
  (forall a e, readFromStandardIn g = false -> args rt = [a] -> url g = false ->
   filepathAbs rt a = inr e ->
   unlogged (fst (run' g rt)) = [FilepathAbs a] /\ snd (run' g rt) = OsExit 1).
Proof.
  pose proof (report_is_log g) as Hrep.
  pose proof (run_course g rt) as HC.
  repeat split.
  - intros Hin. remember (run' g rt) as r eqn:Hr. clear Hr.
    destruct HC as [Hlen Hin' | a e Hin' | front logs nm e Hn Hlogs Hnew
                   | front logs logs' nm e ex Hn Hlogs Hlogs' Hnew Hex
                   | front logs logs' nm ex Hn Hlogs Hlogs' Hnew Hex];
      try congruence;
      destruct Hn; try congruence; cbn [fst];
      unfold chosenKind; rewrite Hin;
      rewrite ?unlogged_app, (unlogged_logs _ Hrep), (unlogged_logs _ Hlogs);
      cbn; eexists; reflexivity.
  - intros a Hin Hargs Hurl. remember (run' g rt) as r eqn:Hr. clear Hr.
    destruct HC as [Hlen Hin' | a' e Hin' Hurl' | front logs nm e Hn Hlogs Hnew
                   | front logs logs' nm e ex Hn Hlogs Hlogs' Hnew Hex
                   | front logs logs' nm ex Hn Hlogs Hlogs' Hnew Hex];
      try congruence; try (rewrite Hargs in Hlen; now contradiction Hlen);
      destruct Hn; try congruence; cbn [fst];
      unfold chosenKind; rewrite Hurl;
      rewrite ?unlogged_app, (unlogged_logs _ Hrep), (unlogged_logs _ Hlogs);
      cbn; replace a0 with a by congruence; eexists; reflexivity.
  - intros a p Hin Hargs Hurl Habs. remember (run' g rt) as r eqn:Hr. clear Hr.
    destruct HC as [Hlen Hin' | a' e Hin' Hurl' Hargs' Habs'
                   | front logs nm e Hn Hlogs Hnew
                   | front logs logs' nm e ex Hn Hlogs Hlogs' Hnew Hex
                   | front logs logs' nm ex Hn Hlogs Hlogs' Hnew Hex];
      try congruence; try (rewrite Hargs in Hlen; now contradiction Hlen);
      destruct Hn; try congruence; cbn [fst];
      unfold chosenKind; rewrite Hurl, Hin;
      rewrite ?unlogged_app, (unlogged_logs _ Hrep), (unlogged_logs _ Hlogs);
      cbn;
      replace a0 with a by congruence; replace p0 with p by congruence;
      eexists; reflexivity.
  - remember (run' g rt) as r eqn:Hr. clear Hr.
    destruct HC as [Hlen Hin' | a' e' Hin' Hurl' Hargs' Habs'
                   | front logs nm e' Hn Hlogs Hnew
                   | front logs logs' nm e' ex Hn Hlogs Hlogs' Hnew Hex
                   | front logs logs' nm ex Hn Hlogs Hlogs' Hnew Hex];
      try congruence; try (rewrite H0 in Hlen; now contradiction Hlen);
      try (destruct Hn; congruence).
    cbn [fst]. rewrite unlogged_app, (unlogged_logs _ Hrep). cbn.
    replace a' with a by congruence. reflexivity.
  - remember (run' g rt) as r eqn:Hr. clear Hr.
    destruct HC as [Hlen Hin' | a' e' Hin' Hurl' Hargs' Habs'
                   | front logs nm e' Hn Hlogs Hnew
                   | front logs logs' nm e' ex Hn Hlogs Hlogs' Hnew Hex
                   | front logs logs' nm ex Hn Hlogs Hlogs' Hnew Hex];
      try congruence; try (rewrite H0 in Hlen; now contradiction Hlen);
      try (destruct Hn; congruence).
    reflexivity.
Qed.

(** *** How a run ends *)

Lemma no_exit_bind {A B : Type} (m : M A) (k : A -> M B) :
  (forall c, snd m <> inr (OsExit c)) ->
  (forall a c, snd (k a) <> inr (OsExit c)) ->
  forall c, snd (bind m k) <> inr (OsExit c).
Proof.
  intros Hm Hk c. destruct m as [tr [a|s]].
  - rewrite bind_ok. apply Hk.
  - rewrite bind_stop. cbn. intros H. apply (Hm c). cbn. congruence.
Qed.

Lemma no_exit_call {A : Type} (r : Res A) c : snd (call r) <> inr (OsExit c).
Proof. now destruct r. Qed.

Lemma no_exit_emit (e : Event) c : snd (emit e) <> inr (OsExit c).
Proof. discriminate. Qed.

Lemma no_exit_executeTemplate rt tmpl data c :
  snd (executeTemplate rt tmpl data) <> inr (OsExit c).
Proof. unfold executeTemplate. now destruct (templateExecute rt tmpl). Qed.

Lemma no_exit_createOrPanic rt path c :
  snd (createOrPanic rt path) <> inr (OsExit c).
Proof. unfold createOrPanic. now destruct (osCreate rt path). Qed.

(** The [switch] never ends the process by [os.Exit]. *)
Lemma emitOutput_no_exit g rt ex src c :
  snd (emitOutput' g rt ex src) <> inr (OsExit c).
Proof.
  revert c. unfold emitOutput.
  destruct (codeGenConvert g); [|destruct (structsToStdout g);
                                 [|destruct (writeJava g)]].
  - unfold emitConversionCode.
    repeat (apply no_exit_bind; [intros; apply no_exit_emit|intros _]).
    apply no_exit_bind; [intros; apply no_exit_call|intros xt].
    apply no_exit_bind; [intros; apply no_exit_call|intros oneDown].
    intros; apply no_exit_executeTemplate.
  - discriminate.
  - unfold emitJava. cbn zeta.
    repeat (apply no_exit_bind; [intros; apply no_exit_emit|intros _]).
    apply no_exit_bind; [intros; apply no_exit_call|intros _].
    apply no_exit_bind; [intros; rewrite visitChildren_eq; discriminate|].
    intros onlyChild.
    apply no_exit_bind; [intros; apply no_exit_call|intros cls].
    apply no_exit_bind; [intros; rewrite printJavaJaxbMain_eq; discriminate|].
    intros _. apply no_exit_bind.
    { unfold printPackageInfo.
      apply no_exit_bind; [intros; apply no_exit_call|intros sp].
      destruct (negb (String.eqb sp "")); [|discriminate].
      apply no_exit_bind; [intros; apply no_exit_call|intros key]. cbn zeta.
      apply no_exit_bind; [intros; apply no_exit_createOrPanic|intros _].
      intros; apply no_exit_executeTemplate. }
    intros _. unfold printMavenPom.
    apply no_exit_bind; [intros; apply no_exit_createOrPanic|intros _].
    intros; apply no_exit_executeTemplate.
  - discriminate.
Qed.

(** A run after [flag.Parse()] has returned: when it ends by [os.Exit]
    the status is 1, the last event is the log line "FATAL ERROR: "
    followed by the error, and nothing was put on standard output or on
    disk. *)
Lemma run_exit_is_fatal g rt (code : Z) :
  snd (run' g rt) = OsExit code ->
  code = 1 /\
  (exists pre msg,
     fst (run' g rt) = (pre ++ [LogPrint ("FATAL ERROR: " +:+ msg)])%list) /\
  forallb (fun e => negb (isOutput e)) (fst (run' g rt)) = true.
Proof.
  pose proof (report_is_log g) as Hrep.
  assert (Hquiet : forall l, forallb isLog l = true ->
                             forallb (fun e => negb (isOutput e)) l = true)
    by (intros l Hl; weaken Hl).
  pose proof (run_course g rt) as HC.
  remember (run' g rt) as r eqn:Hr. clear Hr.
  destruct HC as [Hlen Hin | a e Hin Hurl Hargs Habs
                 | front logs nm e Hn Hlogs Hnew
                 | front logs logs' nm e ex Hn Hlogs Hlogs' Hnew Hex
                 | front logs logs' nm ex Hn Hlogs Hlogs' Hnew Hex];
    cbn [fst snd]; intros Hexit.
  - discriminate.
  - inversion Hexit; subst. split; [reflexivity|]. split.
    + exists (fst (handleParameters g) ++ [FilepathAbs a])%list, e.
      now rewrite <- List.app_assoc.
    + rewrite forallb_app, (Hquiet _ Hrep). reflexivity.
  - inversion Hexit; subst. split; [reflexivity|]. split.
    + exists (fst (handleParameters g) ++ front ++ logs
              ++ [NewSource (chosenKind g) nm])%list, e.
      now rewrite <- !List.app_assoc.
    + pose proof (Named_front g rt front nm Hn) as Hf.
      rewrite !forallb_app, (Hquiet _ Hrep), (Hquiet _ Hlogs). cbn.
      rewrite andb_true_r. weaken Hf.
  - inversion Hexit; subst. split; [reflexivity|]. split.
    + exists (fst (handleParameters g) ++ front ++ logs
              ++ NewSource (chosenKind g) nm :: logs'
              ++ [Extract (Some e)])%list, e.
      rewrite <- !List.app_assoc. cbn [app]. now rewrite <- !List.app_assoc.
    + pose proof (Named_front g rt front nm Hn) as Hf.
      rewrite !forallb_app, (Hquiet _ Hrep), (Hquiet _ Hlogs). cbn.
      rewrite !forallb_app, (Hquiet _ Hlogs'). cbn.
      rewrite andb_true_r. weaken Hf.
  - exfalso. pose proof (emitOutput_no_exit g rt ex nm code) as Hno.
    destruct (emitOutput' g rt ex nm) as [tr [[]|s]]; cbn in *; congruence.
Qed.

(** X9. The process ends by [os.Exit] in two ways only.  Either
    [flag.Parse()] ends it, because the command line does not parse,
    with the status of the flag package and after [flag.Usage] alone; or
    [log.Fatal] ends it, with status 1, and then the last event is the
    log line "FATAL ERROR: " followed by the error.  Either way the
    process has put nothing on standard output or on disk, run no visitor
    and executed no template. *)
Theorem exit_only_with_fatal_message (p : Parsed) rt (code : Z) :
  snd (process' p rt) = OsExit code ->
  forallb (fun e => negb (isOutput e)) (fst (process' p rt)) = true /\
  ((p = ParseExit code /\ fst (process' p rt) = [FlagUsage]) \/
   (exists g pre msg,
      p = FlagsSet g /\ code = 1 /\
      fst (process' p rt)
      = (pre ++ [LogPrint ("FATAL ERROR: " +:+ msg)])%list)).
Proof.
  destruct p as [g|c]; cbn [process fst snd].
  - intros Hexit.
    destruct (run_exit_is_fatal g rt code Hexit) as (Hcode & (pre & msg & Hlast) & Hquiet).
    split; [exact Hquiet|]. right. exists g, pre, msg. now repeat split.
  - intros Hexit. injection Hexit as ->. split; [reflexivity|]. left. now split.
Qed.

(** X10. A run panics only inside the [switch]: after the document has been
    extracted without error and an emitter visitor has been set up.  In
    particular the index expression [flag.Args()[0]] never panics, and
    neither does the argument check or the opening of the source. *)
Theorem panic_only_in_switch g rt (msg : string) :
  snd (run' g rt) = Panicked msg ->
  In (Extract None) (fst (run' g rt)) /\
  visitorsRun (fst (run' g rt)) = 1%nat.
Proof.
  pose proof (report_is_log g) as Hrep.
  assert (Hnone : forall l, forallb isLog l = true -> visitorsRun l = 0%nat)
    by (intros l Hl; apply no_visitor; weaken Hl).
  pose proof (run_course g rt) as HC.
  remember (run' g rt) as r eqn:Hr. clear Hr.
  destruct HC as [Hlen Hin | a e Hin Hurl Hargs Habs
                 | front logs nm e Hn Hlogs Hnew
                 | front logs logs' nm e ex Hn Hlogs Hlogs' Hnew Hex
                 | front logs logs' nm ex Hn Hlogs Hlogs' Hnew Hex];
    cbn [fst snd]; intros Hpanic; try discriminate.
  split.
  - repeat (apply in_or_app; right). right. apply in_or_app. right. now left.
  - pose proof (Named_front g rt front nm Hn) as Hf.
    assert (Hfront : visitorsRun front = 0%nat) by (apply no_visitor; weaken Hf).
    change (NewSource (chosenKind g) nm
            :: logs' ++ Extract None :: fst (emitOutput' g rt ex nm))%list
      with ([NewSource (chosenKind g) nm]
            ++ logs' ++ [Extract None] ++ fst (emitOutput' g rt ex nm))%list.
    rewrite !visitorsRun_app, (Hnone _ Hrep), (Hnone _ Hlogs), (Hnone _ Hlogs'),
      Hfront.
    cbn [visitorsRun List.filter isVisitorInit List.length Nat.add].
    destruct (emitOutput_shape unicodeUpper makeType makeJavaType getFullPath nk
                g rt ex nm)
      as [[Hmodes Hnil] | (front' & v & tail & Heq & Hfront' & Htail & _)].
    + exfalso. unfold emitOutput, modesSet in *.
      destruct (codeGenConvert g), (structsToStdout g), (writeJava g);
        discriminate.
    + rewrite Heq.
      change (VisitorInit v :: tail) with ([VisitorInit v] ++ tail)%list.
      rewrite !visitorsRun_app, (no_visitor front'), (no_visitor tail);
        [reflexivity | weaken Htail | weaken Hfront'].
Qed.
End Courses.

Lemma source_name_by_flags_witness :
  exists rest,
    unlogged (fst (Sample.go (Sample.only AddrStructsToStdout)
                     (Sample.world ["a.xml"] (Some Sample.doc) None)))
    = FilepathAbs "a.xml" :: NewSource FileSource "/w/a.xml" :: rest.
Proof.
  apply (proj1 (proj2 (proj2
           (source_name_by_flags Sample.runes Sample.typeName Sample.typeName
              (fun p => p) name (Sample.only AddrStructsToStdout)
              (Sample.world ["a.xml"] (Some Sample.doc) None))))); reflexivity.
Defined.

Lemma exit_only_with_fatal_message_witness :
  snd (process Sample.runes Sample.typeName Sample.typeName (fun p => p) name
         (FlagsSet (Sample.only AddrWriteJava))
         (Sample.world ["a.xml"] None (Some "unexpected EOF"))) = OsExit 1 /\
  forallb (fun e => negb (isOutput e))
    (fst (process Sample.runes Sample.typeName Sample.typeName (fun p => p) name
            (FlagsSet (Sample.only AddrWriteJava))
            (Sample.world ["a.xml"] None (Some "unexpected EOF")))) = true /\
  forallb (fun e => negb (isOutput e))
    (fst (process Sample.runes Sample.typeName Sample.typeName (fun p => p) name
            (ParseExit 2) (Sample.world [] None None))) = true.
Proof.
  split; [vm_compute; reflexivity|]. split.
  - apply (exit_only_with_fatal_message Sample.runes Sample.typeName
             Sample.typeName (fun p => p) name
             (FlagsSet (Sample.only AddrWriteJava))
             (Sample.world ["a.xml"] None (Some "unexpected EOF")) 1).
    vm_compute; reflexivity.
  - apply (exit_only_with_fatal_message Sample.runes Sample.typeName
             Sample.typeName (fun p => p) name
             (ParseExit 2) (Sample.world [] None None) 2).
    reflexivity.
Defined.

Lemma panic_only_in_switch_witness :
  snd (Sample.go (Sample.only AddrCodeGenConvert)
         (Sample.world ["a.xml"] (Some Sample.emptyDoc) None))
  = Panicked nilDeref /\
  In (Extract None)
    (fst (Sample.go (Sample.only AddrCodeGenConvert)
            (Sample.world ["a.xml"] (Some Sample.emptyDoc) None))) /\
  visitorsRun
    (fst (Sample.go (Sample.only AddrCodeGenConvert)
            (Sample.world ["a.xml"] (Some Sample.emptyDoc) None))) = 1%nat.
Proof.
  split; [vm_compute; reflexivity|].
  apply (panic_only_in_switch Sample.runes Sample.typeName Sample.typeName
           (fun p => p) name (Sample.only AddrCodeGenConvert)
           (Sample.world ["a.xml"] (Some Sample.emptyDoc) None) nilDeref).
  vm_compute; reflexivity.
Defined.

(** ** What changes the log only *)

Lemma sameButLog_refl {R : Type} (p : list Event * R) : sameButLog p p.
Proof. split; reflexivity. Qed.

Lemma sameButLog_bind {A B : Type} (m m' : M A) (k k' : A -> M B) :
  sameButLog m m' -> (forall a, sameButLog (k a) (k' a)) ->
  sameButLog (bind m k) (bind m' k').
Proof.
  destruct m as [tr [a|s]], m' as [tr' [a'|s']]; unfold sameButLog;
    cbn [fst snd]; intros [Ht Hs] Hk; try discriminate.
  - injection Hs as <-. rewrite !bind_ok. cbn [fst snd].
    rewrite !unlogged_app, Ht. destruct (Hk a) as [-> ->]. now split.
  - injection Hs as <-. rewrite !bind_stop. cbn [fst snd]. now split.
Qed.

Lemma sameButLog_finish (m m' : M unit) :
  sameButLog m m' -> sameButLog (finish m) (finish m').
Proof.
  destruct m as [tr [[]|s]], m' as [tr' [[]|s']]; unfold sameButLog;
    cbn [fst snd finish]; intros [Ht Hs]; try discriminate; split;
    congruence.
Qed.

Lemma sameButLog_when (b b' : bool) (s s' : string) :
  sameButLog (when b (logPrint s)) (when b' (logPrint s')).
Proof. destruct b, b'; split; reflexivity. Qed.

Lemma sameButLog_executeTemplate rt (f : string -> option string)
    (tmpl : string) (data : TemplateData) :
  sameButLog (executeTemplate (withTemplateExecute f rt) tmpl data)
             (executeTemplate rt tmpl data).
Proof.
  unfold executeTemplate. apply sameButLog_bind; [apply sameButLog_refl|].
  intros _. cbn [templateExecute withTemplateExecute].
  destruct (f tmpl), (templateExecute rt tmpl); split; reflexivity.
Qed.

Section LogOnly.
Variable unicodeUpper : string -> string.
Variable makeType makeJavaType : Node -> string -> string -> string.
Variable getFullPath : string -> string.
Variable nk : Node -> string.

#[local] Abbreviation emitOutput' :=
  (emitOutput unicodeUpper makeType makeJavaType getFullPath nk).
#[local] Abbreviation run' :=
  (run unicodeUpper makeType makeJavaType getFullPath nk).

Lemma makeSourceReader_DEBUG g rt (b : bool) (nm : string) (u i : bool) :
  sameButLog (makeSourceReader (withDEBUG b g) rt nm u i)
             (makeSourceReader g rt nm u i).
Proof.
  unfold makeSourceReader. apply sameButLog_bind.
  - destruct u; [|destruct i];
      (apply sameButLog_bind; [apply sameButLog_when | intros; apply sameButLog_refl]).
  - intros k. apply sameButLog_bind; [apply sameButLog_when|].
    intros _. apply sameButLog_refl.
Qed.

Lemma openSource_DEBUG g rt (b : bool) :
  sameButLog (openSource (withDEBUG b g) rt) (openSource g rt).
Proof.
  unfold openSource. cbn [readFromStandardIn url withDEBUG].
  apply sameButLog_bind; [apply sameButLog_refl|]. intros nm.
  apply sameButLog_bind; [apply sameButLog_refl|]. intros nm'.
  apply sameButLog_bind; [apply makeSourceReader_DEBUG|]. intros made.
  apply sameButLog_refl.
Qed.

Lemma extractFrom_DEBUG g rt (b : bool) (src : Source) :
  sameButLog (extractFrom (withDEBUG b g) rt src) (extractFrom g rt src).
Proof.
  unfold extractFrom.
  apply sameButLog_bind; [apply sameButLog_when|]. intros _.
  apply sameButLog_refl.
Qed.

Lemma oneLevelInner_DEBUG g (b : bool) rng acc :
  oneLevelInner unicodeUpper makeType (withDEBUG b g) rng acc
  = oneLevelInner unicodeUpper makeType g rng acc.
Proof.
  revert acc. induction rng as [|[k [n|]] rest IH]; intros acc; cbn.
  - reflexivity.
  - destruct (capitalizeFirstLetter unicodeUpper (name n)); cbn;
      [apply IH | reflexivity].
  - apply IH.
Qed.

Lemma oneLevelOuter_DEBUG g (b : bool) inner rng acc :
  oneLevelOuter unicodeUpper makeType (withDEBUG b g) inner rng acc
  = oneLevelOuter unicodeUpper makeType g inner rng acc.
Proof.
  revert acc. induction rng as [|[k [n|]] rest IH]; intros acc; cbn.
  - reflexivity.
  - rewrite oneLevelInner_DEBUG.
    destruct (oneLevelInner unicodeUpper makeType g (inner k) acc); cbn;
      [apply IH | reflexivity].
  - apply IH.
Qed.

Lemma emitOutput_DEBUG g rt (b : bool) ex nm :
  emitOutput' (withDEBUG b g) rt ex nm = emitOutput' g rt ex nm.
Proof.
  unfold emitOutput, emitConversionCode, emitJava, makeOneLevelDown.
  rewrite oneLevelOuter_DEBUG. reflexivity.
Qed.

(** X11. The debug flag changes the log and nothing else.  Whatever the
    other flags, the arguments and the answers of the library calls, the
    run with the flag on and the run with it off perform the same events
    apart from log lines, in the same order, and stop in the same
    way. *)
Theorem debug_flag_changes_the_log_only g rt (b : bool) :
  sameButLog (run' (withDEBUG b g) rt) (run' g rt).
Proof.
  unfold run, main. apply sameButLog_finish.
  apply sameButLog_bind;
    [|intros reached; rewrite emitOutput_DEBUG; apply sameButLog_refl].
  unfold mainUntilSwitch.
  apply sameButLog_bind; [apply sameButLog_refl|]. intros [err|].
  - apply sameButLog_refl.
  - cbn [readFromStandardIn withDEBUG].
    destruct (negb (List.length (args rt) =? 1)%nat && negb (readFromStandardIn g));
      [apply sameButLog_refl|].
    unfold openAndExtract.
    apply sameButLog_bind; [apply openSource_DEBUG|]. intros opened.
    apply sameButLog_bind; [apply extractFrom_DEBUG|]. intros ex.
    apply sameButLog_refl.
Qed.

Lemma printPackageInfo_templates rt f node javaDir javaPackage attrs nsTags :
  sameButLog
    (printPackageInfo nk (withTemplateExecute f rt) node javaDir javaPackage attrs nsTags)
    (printPackageInfo nk rt node javaDir javaPackage attrs nsTags).
Proof.
  unfold printPackageInfo.
  apply sameButLog_bind; [apply sameButLog_refl|]. intros sp.
  destruct (negb (String.eqb sp "")); [|apply sameButLog_refl].
  apply sameButLog_bind; [apply sameButLog_refl|]. intros key.
  apply sameButLog_bind; [apply sameButLog_refl|]. intros _.
  apply sameButLog_executeTemplate.
Qed.

Lemma emitOutput_templates g rt f ex nm :
  sameButLog (emitOutput' g (withTemplateExecute f rt) ex nm)
             (emitOutput' g rt ex nm).
Proof.
  unfold emitOutput.
  destruct (codeGenConvert g); [|destruct (structsToStdout g);
                                 [|destruct (writeJava g)]].
  - unfold emitConversionCode.
    do 4 (apply sameButLog_bind; [apply sameButLog_refl|]; intros _).
    apply sameButLog_bind; [apply sameButLog_refl|]. intros xt.
    apply sameButLog_bind; [apply sameButLog_refl|]. intros oneDown.
    apply sameButLog_executeTemplate.
  - apply sameButLog_refl.
  - unfold emitJava.
    do 3 (apply sameButLog_bind; [apply sameButLog_refl|]; intros _).
    apply sameButLog_bind; [apply sameButLog_refl|]. intros _.
    apply sameButLog_bind; [apply sameButLog_refl|]. intros onlyChild.
    apply sameButLog_bind; [apply sameButLog_refl|]. intros className.
    apply sameButLog_bind.
    { unfold printJavaJaxbMain.
      apply sameButLog_bind; [apply sameButLog_refl|]. intros _.
      apply sameButLog_executeTemplate. }
    intros _. apply sameButLog_bind; [apply printPackageInfo_templates|].
    intros _. unfold printMavenPom.
    apply sameButLog_bind; [apply sameButLog_refl|]. intros _.
    apply sameButLog_executeTemplate.
  - apply sameButLog_refl.
Qed.

(** X12. An error of [t.Execute] is logged and has no other effect: with
    any other answers of the template executions the run performs the
    same events apart from log lines (it creates the same files and
    executes the same templates on the same data) and stops in the same
    way.  In particular a failing template never changes the exit
    status. *)
Theorem template_errors_change_the_log_only g rt (f : string -> option string) :
  sameButLog (run' g (withTemplateExecute f rt)) (run' g rt).
Proof.
  unfold run, main. apply sameButLog_finish.
  apply sameButLog_bind; [apply sameButLog_refl|]. intros reached.
  apply emitOutput_templates.
Qed.
End LogOnly.

(** ** The cases of the switch *)

Section Modes.
Variable unicodeUpper : string -> string.
Variable makeType makeJavaType : Node -> string -> string -> string.
Variable getFullPath : string -> string.
Variable nk : Node -> string.

#[local] Abbreviation emitOutput' :=
  (emitOutput unicodeUpper makeType makeJavaType getFullPath nk).
#[local] Abbreviation run' :=
  (run unicodeUpper makeType makeJavaType getFullPath nk).
#[local] Abbreviation entry := (entryFor unicodeUpper makeType).

Lemma go_case_no_files g rt ex nm :
  codeGenConvert g = true \/ structsToStdout g = true ->
  forallb (fun e => negb (touchesFiles e)) (fst (emitOutput' g rt ex nm)) = true.
Proof.
  intros Hgo. unfold emitOutput.
  destruct (codeGenConvert g) eqn:Hc.
  - destruct (emitConversionCode_shape unicodeUpper makeType getFullPath g rt ex nm)
      as (tail & -> & Htail).
    cbn [forallb touchesFiles negb andb].
    refine (forallb_impl _ _ _ _ Htail).
    intros e He.
    destruct e as [| | | | | | | | | |? []| | | |]; cbn in He |- *;
      try discriminate He; reflexivity.
  - destruct Hgo as [Hgo|Hgo]; [discriminate|]. rewrite Hgo. reflexivity.
Qed.

(** X13. The Java flag yields to the Go modes.  When the conversion flag or
    the structs flag is set, the run removes no directory, makes none
    and writes no file, whether or not the Java flag is set as well. *)
Theorem go_modes_leave_files_alone g rt :
  codeGenConvert g = true \/ structsToStdout g = true ->
  forallb (fun e => negb (touchesFiles e)) (fst (run' g rt)) = true.
Proof.
  intros Hgo.
  pose proof (report_is_log g) as Hrep.
  assert (Hquiet : forall l, forallb isLog l = true ->
                             forallb (fun e => negb (touchesFiles e)) l = true)
    by (intros l Hl; weaken Hl).
  assert (Hfront : forall front nm, Named g rt front nm ->
                     forallb (fun e => negb (touchesFiles e)) front = true).
  { intros front nm Hn. pose proof (Named_front g rt front nm Hn) as Hf.
    weaken Hf. }
  pose proof (run_course unicodeUpper makeType makeJavaType getFullPath nk g rt)
    as HC.
  remember (run' g rt) as r eqn:Hr. clear Hr.
  destruct HC as [Hlen Hin | a e Hin Hurl Hargs Habs
                 | front logs nm e Hn Hlogs Hnew
                 | front logs logs' nm e ex Hn Hlogs Hlogs' Hnew Hex
                 | front logs logs' nm ex Hn Hlogs Hlogs' Hnew Hex];
    cbn [fst];
    rewrite ?forallb_app, ?(Hquiet _ Hrep), ?(Hquiet _ Hlogs), ?(Hfront _ _ Hn);
    cbn [forallb touchesFiles negb andb];
    rewrite ?forallb_app, ?(Hquiet _ Hlogs');
    cbn [forallb touchesFiles negb andb];
    try reflexivity.
  now apply go_case_no_files.
Qed.

(** X14. The conversion case, once the document is extracted.  The visitor
    runs into the string writer first.  Then the run panics, before the
    template is executed, when there is no first element (nil pointer),
    when the name of the first element is empty (slice bounds), when the
    root is nil (nil pointer), or when some grandchild of the root has an
    empty name (slice bounds); these are looked at in this order.
    Otherwise the template "chidleyGen" is executed once, on the entry of
    the first element, one entry per grandchild of the root, the full
    path of the source and the text of the structs, and the run returns;
    an error of the template is logged only. *)
Theorem conversion_mode_outcome g rt pre ex src :
  mainUntilSwitch g rt = (pre, inl (ex, src)) ->
  codeGenConvert g = true ->
  let setup :=
    (pre ++ [WriterOpen stringWriter; VisitorInit PrintGoStructVisitor;
             Visit PrintGoStructVisitor (root ex); WriterClose stringWriter])%list in
  (firstNode ex = None -> run' g rt = (setup, Panicked nilDeref)) /\
  (forall n, firstNode ex = Some n -> name n = "" ->
     run' g rt = (setup, Panicked sliceBounds)) /\
  (forall n, firstNode ex = Some n -> name n <> "" -> root ex = None ->
     run' g rt = (setup, Panicked nilDeref)) /\
  (forall n r, firstNode ex = Some n -> name n <> "" -> root ex = Some r ->
     RangesOf r (rangeRoot rt) (rangeChild rt) ->
     ((exists m, In m (grandchildren r) /\ name m = "") ->
        run' g rt = (setup, Panicked sliceBounds)) /\
     ((forall m, In m (grandchildren r) -> name m <> "") ->
        exists down logs,
          run' g rt =
          ((setup ++ Execute "chidleyGen"
                       (DataXmlInfo {| BaseXML := entry g n;
                                       OneLevelDownXML := down;
                                       Filename := getFullPath src;
                                       Structs := structsText rt |})
                  :: logs)%list, Returned) /\
          down ≡ₚ map (entry g) (grandchildren r) /\
          forallb isLog logs = true)).
Proof.
  intros Hm Hc setup. subst setup.
  rewrite (run_reached _ _ _ _ _ _ _ _ _ _ Hm).
  unfold emitOutput. rewrite Hc. unfold emitConversionCode.
  rewrite !bind_emit. cbn [fst snd].
  repeat split.
  - intros Hfirst. rewrite Hfirst. cbn. reflexivity.
  - intros n Hfirst Hname. rewrite Hfirst, xmlTypeOf_some.
    unfold named. rewrite Hname. cbn. reflexivity.
  - intros n Hfirst Hname Hroot. rewrite Hfirst, xmlTypeOf_some.
    rewrite (proj2 (named_iff n) Hname), bind_call_ok, Hroot. cbn.
    reflexivity.
  - intros (m & Hin & Hempty).
    rewrite H, xmlTypeOf_some, (proj2 (named_iff n) H0), bind_call_ok, H1.
    rewrite makeOneLevelDown_eq.
    rewrite (forallb_Permutation _ _ _ (grandchildrenIn_Permutation r _ _ H2)).
    replace (forallb named (grandchildren r)) with false.
    + cbn. reflexivity.
    + symmetry. apply forallb_false_exists. exists m. split; [assumption|].
      unfold named. now rewrite Hempty.
  - intros Hall.
    rewrite H, xmlTypeOf_some, (proj2 (named_iff n) H0), bind_call_ok, H1.
    rewrite makeOneLevelDown_eq.
    pose proof (grandchildrenIn_Permutation r _ _ H2) as Hperm.
    rewrite (forallb_Permutation _ _ _ Hperm).
    replace (forallb named (grandchildren r)) with true.
    + rewrite bind_call_ok. unfold executeTemplate. rewrite bind_emit.
      exists (map (entry g) (grandchildrenIn (rangeRoot rt) (rangeChild rt))).
      destruct (templateExecute rt "chidleyGen") as [err|].
      * exists [LogPrint ("executing template: " +:+ err)].
        cbn. rewrite <- List.app_assoc. repeat split.
        now apply Permutation_map.
      * exists []. cbn. rewrite <- List.app_assoc. repeat split.
        now apply Permutation_map.
    + symmetry. apply forallb_forall. intros m Hin. apply named_iff.
      now apply Hall.
Qed.
Lemma created_app (l1 l2 : list Event) :
  created (l1 ++ l2) = (created l1 ++ created l2)%list.
Proof. apply omap_app. Qed.

Lemma created_none (l : list Event) :
  forallb (fun e => negb (touchesFiles e)) l = true -> created l = [].
Proof.
  induction l as [|e l IH]; [reflexivity|]. cbn [forallb].
  intros [He Hl]%andb_prop. unfold created in *. cbn [omap list_omap].
  destruct e; try discriminate He; now apply IH.
Qed.

Lemma created_visits (rng : list (string * option Node)) :
  created (map (fun kv => Visit PrintJavaJaxbVisitor (snd kv)) rng) = [].
Proof. induction rng; [reflexivity | assumption]. Qed.

Lemma executeTemplate_returns rt tmpl data :
  created (fst (executeTemplate rt tmpl data)) = [] /\
  snd (executeTemplate rt tmpl data) = inl tt.
Proof.
  unfold executeTemplate. rewrite bind_emit.
  now destruct (templateExecute rt tmpl).
Qed.

Lemma createOrPanic_outcome rt path :
  created (fst (createOrPanic rt path)) = [path] /\
  snd (createOrPanic rt path)
  = match osCreate rt path with
    | Some err => inr (Panicked err)
    | None => inl tt
    end.
Proof.
  unfold createOrPanic. rewrite bind_emit.
  now destruct (osCreate rt path).
Qed.

Lemma snd_bind {A B : Type} (m : M A) (k : A -> M B) :
  snd (bind m k) =
  match snd m with
  | inl a => snd (k a)
  | inr s => inr s
  end.
Proof. destruct m as [tr [a|s]]; [now rewrite bind_ok | reflexivity]. Qed.

Lemma created_bind {A B : Type} (m : M A) (k : A -> M B) :
  created (fst (bind m k)) =
  (created (fst m) ++ match snd m with
                      | inl a => created (fst (k a))
                      | inr _ => []
                      end)%list.
Proof.
  rewrite fst_bind. destruct (snd m); [apply created_app|].
  now rewrite List.app_nil_r.
Qed.

(** A file and then the template into it: what is created and how the
    two calls end. *)
Lemma create_then_template rt path tmpl data :
  created (fst (bind (createOrPanic rt path)
                  (fun _ => executeTemplate rt tmpl data))) = [path] /\
  snd (bind (createOrPanic rt path) (fun _ => executeTemplate rt tmpl data))
  = match osCreate rt path with
    | Some err => inr (Panicked err)
    | None => inl tt
    end.
Proof.
  destruct (createOrPanic_outcome rt path) as [Hc Hs].
  destruct (executeTemplate_returns rt tmpl data) as [Hc' Hs'].
  rewrite created_bind, snd_bind, Hc, Hs.
  destruct (osCreate rt path); [now split|]. now rewrite Hc', Hs'.
Qed.

Lemma printMavenPom_outcome rt (path app : string) :
  created (fst (printMavenPom rt path app)) = [path] /\
  snd (printMavenPom rt path app)
  = match osCreate rt path with
    | Some err => inr (Panicked err)
    | None => inl tt
    end.
Proof. unfold printMavenPom. apply create_then_template. Qed.

Lemma printPackageInfo_outcome rt (c : Node) (dir pkg : string) attrs nsTags :
  created (fst (printPackageInfo nk rt (Some c) dir pkg attrs nsTags))
  = (if String.eqb (space c) "" then []
     else [dir +:+ "/xml/package-info.java"]) /\
  snd (printPackageInfo nk rt (Some c) dir pkg attrs nsTags)
  = if String.eqb (space c) "" then inl tt
    else match osCreate rt (dir +:+ "/xml/package-info.java") with
         | Some err => inr (Panicked err)
         | None => inl tt
         end.
Proof.
  unfold printPackageInfo. cbn [field]. rewrite !bind_call_ok.
  destruct (String.eqb (space c) ""); cbn [negb]; [now split|].
  apply create_then_template.
Qed.

(** X15. The files of the Java case, with a non-nil base element [c].  The
    run creates [package-info.java] below the Java directory only when
    the base element has a namespace, and [pom.xml] below the base
    directory last; these are the only paths that the functions of
    chidley.go hand to [os.Create] (the visitor and the class writer, in
    other files, open their files themselves).  When
    [package-info.java] cannot be created the run panics with that error
    and [pom.xml] is never created.  Otherwise the run returns exactly
    when [pom.xml] can be created, and panics with the error of its
    creation when not. *)
Theorem java_mode_files g rt pre ex src r front (k : string) (c : Node) :
  mainUntilSwitch g rt = (pre, inl (ex, src)) ->
  codeGenConvert g = false -> structsToStdout g = false -> writeJava g = true ->
  root ex = Some r ->
  rangeRoot rt = (front ++ [(k, Some c)])%list ->
  let info := javaDirOf g +:+ "/xml/package-info.java" in
  let pom := baseJavaDir g +:+ "/pom.xml" in
  let pomOutcome := match osCreate rt pom with
                    | Some err => Panicked err
                    | None => Returned
                    end in
  (space c = "" ->
     created (fst (run' g rt)) = [pom] /\ snd (run' g rt) = pomOutcome) /\
  (space c <> "" -> osCreate rt info = None ->
     created (fst (run' g rt)) = [info; pom] /\ snd (run' g rt) = pomOutcome) /\
  (forall err, space c <> "" -> osCreate rt info = Some err ->
     created (fst (run' g rt)) = [info] /\ snd (run' g rt) = Panicked err).
Proof.
  intros Hm Hc Hs Hj Hroot Hrng info pom pomOutcome.
  rewrite (run_java _ _ _ _ _ _ _ _ _ _ Hm Hc Hs Hj).
  rewrite (emitJava_loop _ _ _ _ _ _ _ r Hroot).
  assert (Hlast : List.last (map snd (rangeRoot rt)) None = Some c)
    by (rewrite Hrng, map_app; apply List.last_last).
  rewrite Hlast, bind_ok. cbn [fst snd].
  change (callMakeJavaType makeJavaType (Some c) (namePrefix g) "")
    with (Ok (makeJavaType c (namePrefix g) "")).
  rewrite bind_call_ok, printJavaJaxbMain_eq, bind_ok. cbn [fst snd].
  rewrite !created_app, (created_none pre (reached_no_files _ _ _ _ _ Hm)).
  rewrite created_visits.
  set (logs := match templateExecute rt "chidleyJaxbGenClass" with
               | Some err => [LogPrint ("executing template: " +:+ err)]
               | None => []
               end).
  assert (Hlogs : created logs = []) by (subst logs; now destruct (templateExecute rt _)).
  cbn [created omap list_omap app]. fold (created logs). rewrite Hlogs.
  cbn [app].
  rewrite created_bind, snd_bind.
  destruct (printPackageInfo_outcome rt c (javaDirOf g)
              (javaBasePackage +:+ "." +:+ javaAppName g)
              (globalTagAttributes ex) (nameSpaceTagMap ex)) as [-> ->].
  destruct (printMavenPom_outcome rt pom (javaAppName g)) as [Hpc Hps].
  fold pom. fold info.
  repeat split.
  - rewrite (proj2 (String.eqb_eq _ _) H). exact Hpc.
  - rewrite (proj2 (String.eqb_eq _ _) H), Hps.
    subst pomOutcome. now destruct (osCreate rt pom).
  - rewrite (proj2 (String.eqb_neq _ _) H), H0, Hpc. reflexivity.
  - rewrite (proj2 (String.eqb_neq _ _) H), H0, Hps.
    subst pomOutcome. now destruct (osCreate rt pom).
  - rewrite (proj2 (String.eqb_neq _ _) H), H0. reflexivity.
  - rewrite (proj2 (String.eqb_neq _ _) H), H0. reflexivity.
Qed.
End Modes.

Lemma go_modes_leave_files_alone_witness :
  forallb (fun e => negb (touchesFiles e))
    (fst (Sample.go Cases.convertAndJava
            (Sample.world ["a.xml"] (Some Sample.doc) None))) = true.
Proof.
  apply (go_modes_leave_files_alone Sample.runes Sample.typeName Sample.typeName
           (fun p => p) name Cases.convertAndJava
           (Sample.world ["a.xml"] (Some Sample.doc) None)).
  left. reflexivity.
Defined.

Lemma conversion_mode_outcome_witness :
  snd (Sample.go (Sample.only AddrCodeGenConvert)
         (Sample.world ["a.xml"] (Some Sample.doc) None)) = Returned.
Proof.
  edestruct (conversion_mode_outcome
               Sample.runes Sample.typeName Sample.typeName (fun p => p) name
               (Sample.only AddrCodeGenConvert)
               (Sample.world ["a.xml"] (Some Sample.doc) None))
    as (_ & _ & _ & H); [vm_compute; reflexivity | reflexivity |].
  edestruct (H Sample.elemR Sample.doc) as [_ Hok];
    [vm_compute; reflexivity | discriminate | reflexivity
    | apply RangesOf_inOrder |].
  destruct Hok as (down & logs & Heq & _).
  - intros m Hin. vm_compute in Hin.
    destruct Hin as [<-|[<-|[]]]; discriminate.
  - unfold Sample.go. rewrite Heq. reflexivity.
Defined.

Lemma java_mode_files_witness :
  created (fst (Sample.go (Sample.only AddrWriteJava)
                  (Sample.world ["a.xml"] (Some Sample.doc) None)))
  = ["java/pom.xml"] /\
  snd (Sample.go (Sample.only AddrWriteJava)
         (Sample.world ["a.xml"] (Some Sample.doc) None)) = Returned.
Proof.
  edestruct (java_mode_files
               Sample.runes Sample.typeName Sample.typeName (fun p => p) name
               (Sample.only AddrWriteJava)
               (Sample.world ["a.xml"] (Some Sample.doc) None))
    with (r := Sample.doc) (front := @nil (string * option Node))
         (k := "r") (c := Sample.elemR)
    as (H & _ & _);
    [vm_compute; reflexivity | reflexivity | reflexivity | reflexivity
    | reflexivity | vm_compute; reflexivity |].
  exact (H eq_refl).
Defined.
